(** * Verification model of the slide-deck rendering core of ppt-automation

    Shallow embedding of the parts of [src/src/ppt_builder.py] and
    [src/src/ppt_generator.py] that the specification talks about:
    the table-data resolver [PPTBuilder._get_table_data], the row-type
    detection, the shrink-to-fit arithmetic and the number formatting of
    [PPTBuilder.add_table], the chart/table branch of the slide generators,
    the per-slide error isolation of [PPTGenerator.generate] and the
    affiliate replacement on the title slide.

    Modelling conventions.
    - Python strings are [string]; the string methods used by the code
      ([strip], [lower], [upper], [in], [startswith], [split], [replace])
      are written out below for the ASCII range.
    - Python floats are exact rationals [Q].
    - A pandas DataFrame is a record holding its index labels and its
      columns, each column a label with its list of cells.
    - Python exceptions are the constructors of [exn]. *)

From Stdlib Require Import ZArith QArith String Ascii List Bool Lia.
From Stdlib Require Import Numbers.DecimalString QArith.Qround QArith.Qabs Lqa.
Import ListNotations.
Open Scope string_scope.

(* ------------------------------------------------------------------ *)
(** ** Python string methods (ASCII) *)

Module PyStr.

(** [str.isspace] on one ASCII character: \t \n \v \f \r, \x1c-\x1f, space. *)
Definition is_space (c : ascii) : bool :=
  let n := nat_of_ascii c in
  ((9 <=? n) && (n <=? 13))%nat || ((28 <=? n) && (n <=? 32))%nat.

Fixpoint lstrip (s : string) : string :=
  match s with
  | EmptyString => EmptyString
  | String c r => if is_space c then lstrip r else s
  end.

Fixpoint rev_str (s : string) (acc : string) : string :=
  match s with
  | EmptyString => acc
  | String c r => rev_str r (String c acc)
  end.

Definition rstrip (s : string) : string :=
  rev_str (lstrip (rev_str s EmptyString)) EmptyString.

Definition strip (s : string) : string := rstrip (lstrip s).

Definition lower_char (c : ascii) : ascii :=
  let n := nat_of_ascii c in
  if ((65 <=? n) && (n <=? 90))%nat then ascii_of_nat (n + 32) else c.

Definition upper_char (c : ascii) : ascii :=
  let n := nat_of_ascii c in
  if ((97 <=? n) && (n <=? 122))%nat then ascii_of_nat (n - 32) else c.

Fixpoint map_str (f : ascii -> ascii) (s : string) : string :=
  match s with
  | EmptyString => EmptyString
  | String c r => String (f c) (map_str f r)
  end.

Definition lower (s : string) : string := map_str lower_char s.
Definition upper (s : string) : string := map_str upper_char s.

(** [s.startswith(p)] *)
Fixpoint startswith (s p : string) : bool :=
  match p, s with
  | EmptyString, _ => true
  | String a p', String b s' => Ascii.eqb a b && startswith s' p'
  | String _ _, EmptyString => false
  end.

(** [p in s] (substring test; the empty string is in every string). *)
Fixpoint contains (s p : string) : bool :=
  startswith s p ||
  match s with
  | EmptyString => false
  | String _ s' => contains s' p
  end.

(** [s.replace(old, new)] for a non-empty [old]: non-overlapping
    occurrences, left to right. *)
Fixpoint replace_aux (fuel : nat) (s old new : string) : string :=
  match fuel with
  | O => s
  | S fuel' =>
    match s with
    | EmptyString => EmptyString
    | String c r =>
      if startswith s old
      then new ++ replace_aux fuel' (substring (String.length old) (String.length s) s) old new
      else String c (replace_aux fuel' r old new)
    end
  end.

Definition replace (s old new : string) : string :=
  replace_aux (S (String.length s)) s old new.

(** [s.split()]: maximal runs of non-whitespace characters. *)
Fixpoint split_aux (s : string) (cur : string) : list string :=
  match s with
  | EmptyString => if String.eqb cur "" then [] else [rev_str cur ""]
  | String c r =>
    if is_space c
    then (if String.eqb cur "" then [] else [rev_str cur ""]) ++ split_aux r ""
    else split_aux r (String c cur)
  end.

Definition split (s : string) : list string := split_aux s "".

(** [' '.join(xs)] *)
Fixpoint join_space (xs : list string) : string :=
  match xs with
  | [] => ""
  | [x] => x
  | x :: r => x ++ " " ++ join_space r
  end.

(** Truthiness of a string. *)
Definition truthy (s : string) : bool := negb (String.eqb s "").

End PyStr.

Import PyStr.

(* ------------------------------------------------------------------ *)
(** ** Cells, DataFrames and the data store *)

(** A cell of a DataFrame: Python [int], [float], [str], and the two
    missing markers pandas produces, [NaN] and [None]. *)
Inductive value :=
| VInt (z : Z)
| VFloat (q : Q)
| VStr (s : string)
| VNaN
| VNone.

(** [pd.isna(v)] *)
Definition isna (v : value) : bool :=
  match v with VNaN | VNone => true | _ => false end.

Definition Z_to_string (z : Z) : string :=
  NilEmpty.string_of_int (Z.to_int z).

(** Strict order test on rationals. *)
Definition Qlt_bool (x y : Q) : bool := negb (Qle_bool y x).

(** Decimal digits of the fraction [num/den] (0 <= num < den), at most
    [fuel] digits, trailing zeros dropped. *)
Fixpoint frac_digits (fuel : nat) (num den : Z) : string :=
  match fuel with
  | O => ""
  | S f =>
    if (num =? 0)%Z then ""
    else let d := (num * 10 / den)%Z in
         Z_to_string d ++ frac_digits f (num * 10 mod den)%Z den
  end.

(** [str(x)] of a float, for decimal fractions of at most 16 digits
    (the values the tables hold): integral floats print as ["n.0"]. *)
Definition float_str (q : Q) : string :=
  let n := Qnum q in
  let d := Zpos (Qden q) in
  let sign := if (n <? 0)%Z then "-" else "" in
  let a := Z.abs n in
  let ip := (a / d)%Z in
  let fp := (a mod d)%Z in
  sign ++ Z_to_string ip ++ "." ++
  (if (fp =? 0)%Z then "0" else frac_digits 16 fp d).

(** [str(v)] *)
Definition py_str (v : value) : string :=
  match v with
  | VInt z => Z_to_string z
  | VFloat q => float_str q
  | VStr s => s
  | VNaN => "nan"
  | VNone => "None"
  end.

(** Python [float(v)] on a cell ([None] raises and is [None] here, as
    are strings, which the tables of the core do not convert). *)
Definition as_number (v : value) : option Q :=
  match v with
  | VInt z => Some (inject_Z z)
  | VFloat q => Some q
  | _ => None
  end.

(** Lexicographic order of Python strings on code points. *)
Fixpoint str_le (s t : string) : bool :=
  match s, t with
  | EmptyString, _ => true
  | String _ _, EmptyString => false
  | String a s', String b t' =>
    let x := nat_of_ascii a in
    let y := nat_of_ascii b in
    if (x <? y)%nat then true
    else if (y <? x)%nat then false
    else str_le s' t'
  end.

(** Element-wise [cell == value] of pandas: a missing cell compares unequal. *)
Definition cell_eq (a b : value) : bool :=
  match as_number a, as_number b with
  | Some x, Some y => Qeq_bool x y
  | _, _ =>
    match a, b with
    | VStr s, VStr t => String.eqb s t
    | _, _ => false
    end
  end.

(** Element-wise [cell <= value]: [None] is a [TypeError] (Python has no
    order between a number and a string), a missing cell or a missing
    value gives [False]. *)
Definition cell_le (a b : value) : option bool :=
  if isna a || isna b then Some false
  else match as_number a, as_number b with
       | Some x, Some y => Some (Qle_bool x y)
       | _, _ =>
         match a, b with
         | VStr s, VStr t => Some (str_le s t)
         | _, _ => None
         end
       end.

Definition cell_ge (a b : value) : option bool := cell_le b a.

(** A DataFrame: its index labels and its columns (label, cells). *)
Record frame := mkFrame {
  index : list Z;
  columns : list (string * list value)
}.

Definition labels (df : frame) : list string := map fst (columns df).

(** The two kinds of entries of the store: a DataFrame, or a workbook
    mapping sheet names to DataFrames. *)
Inductive entry :=
| ETable (df : frame)
| ESheets (sheets : list (string * frame)).

(** The data store: an insertion-ordered Python dict. *)
Definition store := list (string * entry).

(** One filter of the mapping: [{column, operator, value}]. *)
Record filter_def := mkFilter {
  f_column : option string;
  f_operator : string;
  f_value : value
}.

(** The mapping dict read by [_get_table_data]. *)
Record mapping := mkMapping {
  m_data_source : option string;
  m_sheet : option string;
  m_filters : list filter_def;
  m_columns : option (list string);
  m_max_rows : option Z
}.

Inductive exn := TypeError | UnboundLocalError | ValueError.

(** What [_get_table_data] returns: [None], a DataFrame, the tuple
    (DataFrame, column mapping), or it raises. *)
Inductive resolved :=
| RNone
| RFrame (df : frame)
| RFrameMap (df : frame) (cmap : list (string * string))
| RRaise (e : exn).

Definition result_frame (r : resolved) : option frame :=
  match r with
  | RFrame df | RFrameMap df _ => Some df
  | _ => None
  end.

(** [pd.DataFrame({"Message": [msg]})] *)
Definition message_frame (msg : string) : frame :=
  mkFrame [0%Z] [("Message", [VStr msg])].

(* ------------------------------------------------------------------ *)
(** ** Small dict and list helpers *)

Fixpoint assoc {A} (k : string) (l : list (string * A)) : option A :=
  match l with
  | [] => None
  | (k', v) :: r => if String.eqb k k' then Some v else assoc k r
  end.

Fixpoint find_key {A} (p : string -> bool) (l : list (string * A))
  : option (string * A) :=
  match l with
  | [] => None
  | (k, v) :: r => if p k then Some (k, v) else find_key p r
  end.

(** [d[k] = v] on an insertion-ordered dict. *)
Fixpoint dict_set (k v : string) (d : list (string * string))
  : list (string * string) :=
  match d with
  | [] => [(k, v)]
  | (k', v') :: r => if String.eqb k k' then (k, v) :: r else (k', v') :: dict_set k v r
  end.

Definition mem (x : string) (l : list string) : bool := existsb (String.eqb x) l.

Fixpoint keep_rows {A} (mask : list bool) (xs : list A) : list A :=
  match mask, xs with
  | b :: m, x :: r => if b then x :: keep_rows m r else keep_rows m r
  | _, _ => []
  end.

(** [df[mask]]: boolean row selection. *)
Definition mask_frame (df : frame) (mask : list bool) : frame :=
  mkFrame (keep_rows mask (index df))
          (map (fun '(l, c) => (l, keep_rows mask c)) (columns df)).

(** [df.head(n)] *)
Definition head (df : frame) (n : Z) : frame :=
  let len := Z.of_nat (length (index df)) in
  let k := Z.to_nat (if (0 <=? n)%Z then n else Z.max 0 (len + n)) in
  mkFrame (firstn k (index df)) (map (fun '(l, c) => (l, firstn k c)) (columns df)).

(** [df[labels]] for a list of labels: for every requested label, every
    column carrying it, in the frame's order (pandas semantics also for
    repeated labels). *)
Definition select_labels (df : frame) (ls : list string) : frame :=
  mkFrame (index df)
          (flat_map (fun l => filter (fun '(l', _) => String.eqb l l') (columns df)) ls).

(* ------------------------------------------------------------------ *)
(** ** [PPTBuilder._get_table_data] *)

Module Resolver.

(** Source lookup: exact key of [data_source.strip()], then a key equal
    to it up to case and surrounding blanks, then a key containing it or
    contained in it. *)
Definition lookup_source (data : store) (data_source : string) : option entry :=
  let n := strip data_source in
  match assoc n data with
  | Some e => Some e
  | None =>
    let l := lower n in
    match find_key (fun k => String.eqb (lower (strip k)) l) data with
    | Some (_, e) => Some e
    | None =>
      match find_key (fun k => let ks := lower (strip k) in
                               contains ks l || contains l ks) data with
      | Some (_, e) => Some e
      | None => None
      end
    end
  end.

(** Outcome of the sheet stage: a DataFrame to continue with, or a value
    returned at once. *)
Inductive sheet_outcome :=
| SFrame (df : frame)
| SReturn (r : resolved).

Definition opt_truthy (s : option string) : bool :=
  match s with Some x => truthy x | None => false end.

(** Sheet lookup on a workbook entry; a DataFrame entry is used directly. *)
Definition select_sheet (e : entry) (sheet_name : option string) : sheet_outcome :=
  match e with
  | ETable df => SFrame df
  | ESheets sheets =>
    match sheet_name with
    | Some s =>
      if truthy s then
        match assoc s sheets with
        | Some df => SFrame df
        | None =>
          let sl := strip (lower s) in
          match find_key (fun k => String.eqb (strip (lower k)) sl) sheets with
          | Some (k, df) =>
            if truthy k then SFrame df
            else
              (* the partial loop overwrites [matched_sheet] only on a hit *)
              match find_key (fun k => let ks := strip (lower k) in
                                       contains ks sl || contains sl ks) sheets with
              | Some (k', df') => if truthy k' then SFrame df'
                                  else SReturn (RFrame (message_frame ("Sheet '" ++ s ++ "' not found")))
              | None => SReturn (RFrame (message_frame ("Sheet '" ++ s ++ "' not found")))
              end
          | None =>
              match find_key (fun k => let ks := strip (lower k) in
                                       contains ks sl || contains sl ks) sheets with
              | Some (k', df') => if truthy k' then SFrame df'
                                  else SReturn (RFrame (message_frame ("Sheet '" ++ s ++ "' not found")))
              | None => SReturn (RFrame (message_frame ("Sheet '" ++ s ++ "' not found")))
              end
          end
        end
      else
        match sheets with
        | (_, df) :: _ => SFrame df
        | [] => SReturn (RFrame (message_frame "No data available"))
        end
    | None =>
      match sheets with
      | (_, df) :: _ => SFrame df
      | [] => SReturn (RFrame (message_frame "No data available"))
      end
    end
  end.

(** An element-wise comparison over a column; [None] as soon as one cell
    raises. *)
Fixpoint compare_all (cmp : value -> option bool) (c : list value) : option (list bool) :=
  match c with
  | [] => Some []
  | x :: r =>
    match cmp x, compare_all cmp r with
    | Some b, Some bs => Some (b :: bs)
    | _, _ => None
    end
  end.

(** One filter. [result_df[column]] is modelled as the first column with
    that label. *)
Definition apply_filter (df : frame) (f : filter_def) : exn + frame :=
  match f_column f with
  | None => inr df
  | Some c =>
    match assoc c (columns df) with
    | None => inr df
    | Some col =>
      let v := f_value f in
      let op := f_operator f in
      if String.eqb op "!=" then
        match v with
        | VNone => inr (mask_frame df (map (fun x => negb (isna x)) col))
        | _ => inr (mask_frame df (map (fun x => negb (cell_eq x v)) col))
        end
      else if String.eqb op ">=" then
        match compare_all (fun x => cell_ge x v) col with
        | Some m => inr (mask_frame df m)
        | None => inl TypeError
        end
      else if String.eqb op "<=" then
        match compare_all (fun x => cell_le x v) col with
        | Some m => inr (mask_frame df m)
        | None => inl TypeError
        end
      else if String.eqb op "==" then inr (mask_frame df (map (fun x => cell_eq x v) col))
      else if String.eqb op "notna" then inr (mask_frame df (map (fun x => negb (isna x)) col))
      else inr df
    end
  end.

Fixpoint apply_filters (df : frame) (fs : list filter_def) : exn + frame :=
  match fs with
  | [] => inr df
  | f :: r =>
    match apply_filter df f with
    | inl e => inl e
    | inr df' => apply_filters df' r
    end
  end.

(** Strategy 4 normalisation: lower, strip, [_ - .] to blanks, blanks
    collapsed. *)
Definition clean (s : string) : string :=
  join_space (split (replace (replace (replace (strip (lower s)) "_" " ") "-" " ") "." " ")).

(** Strategy 3: among the columns containing the request or contained in
    it, the first of the shortest ones. *)
Fixpoint partial_match (un : string) (avail : list string) (matched : string) : string :=
  match avail with
  | [] => matched
  | a :: r =>
    let an := lower (strip a) in
    if contains an un || contains un an then
      if negb (truthy matched) || (String.length a <? String.length matched)%nat
      then partial_match un r a
      else partial_match un r matched
    else partial_match un r matched
  end.

Definition first_or_empty (p : string -> bool) (avail : list string) : string :=
  match find p avail with Some a => a | None => "" end.

(** The four matching strategies for one requested column; [""] stands
    for [matched_col = None] (both are falsy). *)
Definition match_column (avail : list string) (user_col : string) : string :=
  let u := strip user_col in
  let m1 := if mem u avail then u else "" in
  let un := strip (lower u) in
  let m2 := if truthy m1 then m1
            else first_or_empty (fun a => String.eqb (lower (strip a)) un) avail in
  let m3 := if truthy m2 then m2 else partial_match un avail "" in
  if truthy m3 then m3
  else first_or_empty (fun a => String.eqb (clean a) (clean u)) avail.

(** The matching loop: [matched_cols] and [column_mapping_dict]. *)
Fixpoint match_loop (avail : list string) (cols : list string)
    (matched : list string) (cmap : list (string * string))
  : list string * list (string * string) :=
  match cols with
  | [] => (matched, cmap)
  | u :: r =>
    let mc := match_column avail u in
    if truthy mc then
      if mem mc matched then match_loop avail r matched cmap
      else match_loop avail r (matched ++ [mc])%list (dict_set u mc cmap)
    else match_loop avail r matched cmap
  end.

(** The reordering loop producing [ordered_matched_cols]. *)
Fixpoint order_loop (cols : list string) (cmap : list (string * string))
    (ordered : list string) : list string :=
  match cols with
  | [] => ordered
  | u :: r =>
    match assoc u cmap with
    | Some actual =>
      if mem actual ordered then order_loop r cmap ordered
      else order_loop r cmap (ordered ++ [actual])%list
    | None => order_loop r cmap ordered
    end
  end.

(** [{col: col for col in result_df.columns}] *)
Definition identity_map (ls : list string) : list (string * string) :=
  fold_left (fun d l => dict_set l l d) ls [].

(** Column selection, row cap and return, from [columns = mapping.get("columns")]
    to the end of [_get_table_data]. *)
Definition select_and_cap (df : frame) (m : mapping) (want_map : bool) : resolved :=
  let all_columns (df : frame) :=
    let df' := match m_max_rows m with
               | Some n => if (n =? 0)%Z then df else head df n
               | None => df
               end in
    if want_map then RFrameMap df' (identity_map (labels df')) else RFrame df' in
  match m_columns m with
  | Some ((_ :: _) as cols) =>
    let avail := labels df in
    let '(matched, cmap) := match_loop avail cols [] [] in
    match matched with
    | _ :: _ =>
      let ordered := order_loop cols cmap [] in
      let res := select_labels df ordered in
      if want_map then RFrameMap res cmap else RFrame res
    | [] => all_columns df
    end
  | _ => all_columns df
  end.

(** Where the source and sheet stages and the filters lead: a DataFrame
    for the selection stage, or a value returned before it. *)
Inductive located :=
| LFrame (df : frame)
| LDone (r : resolved).

Definition locate_in_entry (e : entry) (m : mapping) : located :=
  match select_sheet e (m_sheet m) with
  | SReturn r => LDone r
  | SFrame df =>
    match apply_filters df (m_filters m) with
    | inl ex => LDone (RRaise ex)
    | inr df' => LFrame df'
    end
  end.

Definition locate (data : store) (m : mapping) : located :=
  match m_data_source m with
  | None => LDone RNone
  | Some ds =>
    if negb (truthy ds) then LDone RNone
    else match lookup_source data ds with
         | Some e => locate_in_entry e m
         | None =>
           match data with
           | (_, e) :: _ => locate_in_entry e m
           | [] => LDone (RFrame (message_frame "No data available"))
           end
         end
  end.

(** [_get_table_data(data, mapping, return_column_mapping)] *)
Definition get_table_data (data : store) (m : mapping) (want_map : bool) : resolved :=
  match locate data m with
  | LFrame df => select_and_cap df m want_map
  | LDone r => r
  end.

End Resolver.

(* ------------------------------------------------------------------ *)
(** ** [PPTBuilder.add_table]: row-type detection *)

Module RowTypes.

Inductive row_type := Regular | Subtotal | Total.

Definition row_type_eqb (a b : row_type) : bool :=
  match a, b with
  | Regular, Regular | Subtotal, Subtotal | Total, Total => true
  | _, _ => false
  end.

(** Cells of the row at position [p] ([row] of [data.iterrows()]). *)
Definition row_cells (df : frame) (p : nat) : list value :=
  map (fun '(_, c) => nth p c VNaN) (columns df).

(** [str(row.iloc[0]).strip().upper() if len(row) > 0 else ""] *)
Definition first_col_value (row : list value) : string :=
  match row with
  | x :: _ => upper (strip (py_str x))
  | [] => ""
  end.

(** [second_col_value] *)
Definition second_col_value (row : list value) : string :=
  match row with
  | _ :: v :: _ => if isna v then "" else strip (py_str v)
  | _ => ""
  end.

(** [pd.isna(row.iloc[1]) if len(row) > 1 else True] *)
Definition second_missing (row : list value) : bool :=
  match row with
  | _ :: v :: _ => isna v
  | _ => true
  end.

(** The [has_data] loop over [range(2, min(len(row), len(data.columns)))]. *)
Definition has_data (row : list value) (ncols : nat) : bool :=
  existsb (fun v => negb (isna v) && truthy (strip (py_str v)))
          (firstn (Nat.min (length row) ncols - 2) (skipn 2 row)).

(** Row type of one row; [idx] is the row's index label and [nrows] is
    [len(data)]. *)
Definition classify (nrows : nat) (ncols : nat) (idx : Z) (row : list value) : row_type :=
  let first := first_col_value row in
  let second := second_col_value row in
  if contains first "TOTAL" then
    if startswith first "AIL" || startswith first "TOTAL" || startswith first "GRAND"
    then Total
    else if (idx =? Z.of_nat nrows - 1)%Z then Total
    else Subtotal
  else if second_missing row || String.eqb second "" then
    if truthy first && negb (String.eqb first "NAN") then
      if has_data row ncols then Subtotal else Regular
    else Regular
  else Regular.

(** [row_types] of [add_table]: one entry per row of [data.iterrows()]. *)
Definition row_types (df : frame) : list row_type :=
  let n := length (index df) in
  map (fun '(p, idx) => classify n (length (columns df)) idx (row_cells df p))
      (combine (seq 0 n) (index df)).

(** The classification as the specification words it: [total] when the
    uppercased first value contains TOTAL and starts with a marker or is
    the last row; else [subtotal] when the second value is missing or
    blank and a later column carries a value; else [regular]. *)
Definition spec_classify (is_last : bool) (row : list value) : row_type :=
  let first := first_col_value row in
  if contains first "TOTAL" &&
     (startswith first "AIL" || startswith first "TOTAL" || startswith first "GRAND" || is_last)
  then Total
  else if (second_missing row || String.eqb (second_col_value row) "") &&
          existsb (fun v => negb (isna v) && truthy (strip (py_str v))) (skipn 2 row)
  then Subtotal
  else Regular.

End RowTypes.

(* ------------------------------------------------------------------ *)
(** ** [PPTBuilder.add_table]: number formatting of data cells *)

Module NumFormat.

Open Scope Q_scope.

(** Round half to even, as Python's float formatting does on the exact
    value. *)
Definition round_half_even (q : Q) : Z :=
  let fl := Qfloor q in
  let r := q - inject_Z fl in
  if Qlt_bool r (1 # 2) then fl
  else if Qlt_bool (1 # 2) r then (fl + 1)%Z
  else if Z.even fl then fl else (fl + 1)%Z.

(** Thousands grouping of the decimal digits of a natural number. *)
Fixpoint group3 (fuel : nat) (n : Z) : string :=
  match fuel with
  | O => Z_to_string n
  | S f =>
    if (n <? 1000)%Z then Z_to_string n
    else let r := (n mod 1000)%Z in
         let pad := if (r <? 10)%Z then "00" else if (r <? 100)%Z then "0" else "" in
         group3 f (n / 1000)%Z ++ "," ++ pad ++ Z_to_string r
  end.

Definition int_digits (comma : bool) (n : Z) : string :=
  if comma then group3 (Z.to_nat (Z.log2 (n + 1)) + 1) n else Z_to_string n.

(** Left zero padding of the [d] fractional digits. *)
Fixpoint pad_left (d : nat) (s : string) : string :=
  match d with
  | O => s
  | S d' => if (String.length s <? S d')%nat then "0" ++ pad_left d' s else s
  end.

(** [f"{x:.<d>f}"] (and [f"{x:,.<d>f}"] when [comma]). *)
Definition fmt_fixed (d : nat) (comma : bool) (x : Q) : string :=
  let p := (10 ^ Z.of_nat d)%Z in
  let n := round_half_even (Qabs x * inject_Z p) in
  let sign := if Qlt_bool x 0 then "-" else "" in
  let ip := (n / p)%Z in
  let fp := (n mod p)%Z in
  match d with
  | O => sign ++ int_digits comma ip
  | _ => sign ++ int_digits comma ip ++ "." ++ pad_left d (Z_to_string fp)
  end.

(** [int(x)]: truncation towards zero. *)
Definition py_int (x : Q) : Z :=
  if Qle_bool 0 x then Qfloor x else (- Qfloor (- x))%Z.

(** [f"{n:,}"] for a Python int. *)
Definition fmt_int_comma (n : Z) : string :=
  (if (n <? 0)%Z then "-" else "") ++ int_digits true (Z.abs n).

(** The [try] block of the number-formatting branch, after
    [value_float = float(value)]. *)
Definition format_typed (format_type : string) (x : Q) (value : value) : string :=
  if String.eqb format_type "percentage" then
    if Qlt_bool x 1 then fmt_fixed 1 false (x * 100) ++ "%"
    else if Qlt_bool 100 x then fmt_fixed 1 false (x / 100) ++ "%"
    else fmt_fixed 1 false x ++ "%"
  else if String.eqb format_type "percentage_decimal" then fmt_fixed 1 false (x * 100) ++ "%"
  else if String.eqb format_type "number" then
    if Qeq_bool x (inject_Z (py_int x)) then fmt_int_comma (py_int x)
    else fmt_fixed 2 true x
  else if String.eqb format_type "integer" then fmt_int_comma (py_int x)
  else if String.eqb format_type "currency" then "$" ++ fmt_fixed 2 true x
  else strip (py_str value).

(** Text of a data cell in a column listed in [number_formatting]:
    missing cells are blank; a value [float()] rejects (a text cell is
    taken as such) keeps its string. *)
Definition formatted_cell_text (format_type : string) (v : value) : string :=
  let s := lower (py_str v) in
  if isna v || String.eqb s "nan" || String.eqb s "none" || String.eqb s "nat" then ""
  else match as_number v with
       | Some x => format_typed format_type x v
       | None => strip (py_str v)
       end.

End NumFormat.

(* ------------------------------------------------------------------ *)
(** ** [PPTBuilder.add_table]: the height computation *)

Module Layout.

Open Scope Q_scope.

(** The locals of the sizing code that matter for its control flow;
    [None] font sizes are names not yet bound in the function body. *)
Record lstate := mkL {
  row_h : Q;
  header_h : Q;
  calc_h : Q;
  data_font : option Z;
  header_font : option Z;
  passes : nat
}.

(** Python evaluation: a value or a raised exception. *)
Definition py (A : Type) := (exn + A)%type.
Definition ret {A} (a : A) : py A := inr a.
Definition bind {A B} (m : py A) (k : A -> py B) : py B :=
  match m with inl e => inl e | inr a => k a end.
Notation "x <- m ;; k" := (bind m (fun x => k)) (at level 100, m at next level, right associativity).

(** Reading a local: [UnboundLocalError] before its first assignment. *)
Definition read_local (v : option Z) : py Z :=
  match v with Some z => ret z | None => inl UnboundLocalError end.

(** Float division: [ZeroDivisionError] is modelled as [ValueError]. *)
Definition qdiv (a b : Q) : py Q :=
  if Qeq_bool b 0 then inl ValueError else ret (a / b).

Definition Qmax (a b : Q) : Q := if Qle_bool a b then b else a.
Definition Qmin (a b : Q) : Q := if Qle_bool a b then a else b.

(** [base_row_height], [base_header_height] by row-count bucket. *)
Definition base_heights (n : nat) : Q * Q :=
  if (n <=? 5)%nat then (50 # 100, 55 # 100)
  else if (n <=? 10)%nat then (42 # 100, 47 # 100)
  else if (n <=? 15)%nat then (35 # 100, 40 # 100)
  else if (n <=? 20)%nat then (30 # 100, 35 # 100)
  else if (n <=? 25)%nat then (26 # 100, 30 # 100)
  else if (n <=? 30)%nat then (23 # 100, 27 # 100)
  else (20 # 100, 24 # 100).

(** [data_font_size], [header_font_size] by row-count bucket. *)
Definition base_fonts (n : nat) : Z * Z :=
  if (n <=? 10)%nat then (9, 10)%Z
  else if (n <=? 15)%nat then (8, 9)%Z
  else if (n <=? 20)%nat then (7, 8)%Z
  else (6, 7)%Z.

Definition total_h (n : nat) (header row : Q) : Q := header + inject_Z (Z.of_nat n) * row.

(** Multiply both heights by a factor and recompute the total. *)
Definition rescale (n : nat) (st : lstate) (f : Q) : lstate :=
  let r := row_h st * f in
  let h := header_h st * f in
  mkL r h (total_h n h r) (data_font st) (header_font st) (S (passes st)).

(** The first three shrink passes. *)
Definition shrink_passes (n : nat) (H : Q) (st : lstate) : py lstate :=
  if Qlt_bool H (calc_h st) then
    s <- qdiv (H * (92 # 100)) (calc_h st) ;;
    let st1 := rescale n st s in
    if Qlt_bool H (calc_h st1) then
      s2 <- qdiv (H * (92 # 100)) (calc_h st1) ;;
      let st2 := rescale n st1 s2 in
      df <- read_local (data_font st2) ;;
      hf <- read_local (header_font st2) ;;
      let st2 := mkL (row_h st2) (header_h st2) (calc_h st2)
                     (Some (Z.max 6 (df - 1))) (Some (Z.max 7 (hf - 1))) (passes st2) in
      if Qlt_bool H (calc_h st2) then
        s3 <- qdiv (H * (90 # 100)) (calc_h st2) ;;
        ret (rescale n st2 s3)
      else ret st2
    else ret st1
  else ret st.

(** The sizing code of [add_table] from the height buckets to the row
    heights handed to the table: the table height and the number of
    scaling passes applied. [n] is [num_data_rows]; the width
    computation (guarded by [cols > 0]) does not take part. *)
Definition table_height (n : nat) (top height : Q) : py (Q * nat) :=
  let H := Qmin height ((75 # 10) - top - (5 # 10)) in
  let '(r0, h0) := base_heights n in
  st <- shrink_passes n H (mkL r0 h0 (total_h n h0 r0) None None 0) ;;
  let r := Qmax (18 # 100) (row_h st) in
  let h := Qmax (22 # 100) (header_h st) in
  let k := passes st in
  (* final scaling *)
  let fin := total_h n h r in
  st' <- (if Qlt_bool H fin then
            f <- qdiv (H * (92 # 100)) fin ;;
            ret (r * f, h * f, S k)
          else ret (r, h, k)) ;;
  let '(r1, h1, k1) := st' in
  let th := total_h n h1 r1 in
  (* slide-fit emergency scaling *)
  if Qlt_bool ((75 # 10) - (4 # 10)) (top + th) then
    let avail := (75 # 10) - (4 # 10) - top in
    if Qlt_bool (5 # 10) avail then
      e <- qdiv (avail * (92 # 100)) th ;;
      let r2 := r1 * e in
      let h2 := h1 * e in
      let th2 := total_h n h2 r2 in
      if Qlt_bool ((75 # 10) - (4 # 10)) (top + th2) then
        e2 <- qdiv (avail * (90 # 100)) th2 ;;
        ret (total_h n (h2 * e2) (r2 * e2), S (S k1))
      else ret (th2, S k1)
    else ret (th, k1)
  else ret (th, k1).

End Layout.

(* ------------------------------------------------------------------ *)
(** ** [PPTGenerator]: slides, the chart branch and the slide loop *)

Module Generator.

(** Shapes placed on a generated slide. *)
Inductive shape :=
| TextBox (text : string)
| TableShape
| ChartShape.

Definition slide := list shape.

Inductive slide_kind := KContent | KTable.

(** How the chart block of a generator ended: [chart_success]. *)
Inductive chart_outcome := ChartAdded | ChartFailed.

(** The shapes [_generate_content_slide] / [_generate_table_slide] place
    after the title and subtitle. [chart_enabled] is
    [chart_config and chart_config.get("enabled", False)]; [outcome] is
    how the chart block ended; [body] is what the table (resp. content
    mappings) code places when it runs. *)
Definition after_title (k : slide_kind) (chart_enabled : bool)
    (outcome : chart_outcome) (body : list shape) : list shape :=
  if chart_enabled then
    let chart := match outcome with ChartAdded => [ChartShape] | ChartFailed => [] end in
    match k with
    | KTable =>
      match outcome with
      | ChartAdded => chart
      | ChartFailed => (chart ++ [TextBox "Chart data unavailable"])%list
      end
    | KContent => chart
    end
  else body.

(** A slide configuration as the slide loop sees it. [sc_title] is
    [None] when the key is absent; a falsy title is [Some ""]. *)
Record slide_cfg := mkCfg {
  sc_number : nat;
  sc_title : option string
}.

Definition nat_to_string (n : nat) : string := Z_to_string (Z.of_nat n).

Definition unavailable_notice : string :=
  "Content unavailable - please check data configuration".

(** The text boxes the [except] block of [_generate_slide] adds. *)
Definition fallback_shapes (cfg : slide_cfg) : list shape :=
  let title := match sc_title cfg with
               | Some t => t
               | None => "Slide " ++ nat_to_string (sc_number cfg)
               end in
  ((if truthy title then [TextBox title] else []) ++ [TextBox unavailable_notice])%list.

Section SlideLoop.

(** Whether the steps before [slide = self.builder.add_slide(layout)]
    (layout lookup, slide creation) raise for a configuration. *)
Variable prepare_raises : slide_cfg -> bool.
(** What the rest of the [try] block does on the created slide: the
    shapes it places, and whether it then raises. *)
Variable populate : slide_cfg -> list shape * bool.
(** Whether [self.builder.add_slide(None)] in the [except] block raises. *)
Variable fallback_raises : slide_cfg -> bool.

(** [_generate_slide]. When [slide] was never bound the [except] block
    adds a fresh one (unless that raises too, which its inner [except]
    swallows); otherwise it adds its text boxes to the slide already
    created. *)
Definition generate_slide (cfg : slide_cfg) (deck : list slide) : list slide :=
  if prepare_raises cfg then
    (if fallback_raises cfg then deck else (deck ++ [fallback_shapes cfg])%list)
  else let '(placed, raised) := populate cfg in
       if raised then (deck ++ [placed ++ fallback_shapes cfg])%list
       else (deck ++ [placed])%list.

(** The [for idx, slide_config in enumerate(self.slides_mapping)] loop of
    [generate]; [_generate_slide] catches everything itself, so the outer
    [try] never fires. *)
Fixpoint generate_slides (cfgs : list slide_cfg) (deck : list slide) : list slide :=
  match cfgs with
  | [] => deck
  | c :: r => generate_slides r (generate_slide c deck)
  end.

End SlideLoop.

(** Text shapes of the title slide: paragraphs of runs. A shape without a
    [text_frame] attribute (table, picture, group) is skipped. *)
Inductive cover_shape :=
| WithTextFrame (paragraphs : list (list string))
| NoTextFrame (runs : list string).

(** [_replace_affiliate_in_title_slide]: [run.text.replace("AIL", affiliate)]
    in every run of every text-frame shape of the first slide. *)
Definition replace_in_shape (affiliate : string) (s : cover_shape) : cover_shape :=
  match s with
  | WithTextFrame ps =>
    WithTextFrame (map (map (fun run => replace run "AIL" affiliate)) ps)
  | NoTextFrame rs => NoTextFrame rs
  end.

Definition replace_affiliate_in_title_slide (affiliate : string)
    (slides : list (list cover_shape)) : list (list cover_shape) :=
  match slides with
  | [] => []
  | first :: rest => map (replace_in_shape affiliate) first :: rest
  end.

(** The step of [generate] on a template with at least two slides:
    [if self.affiliate: self._replace_affiliate_in_title_slide(...)]. *)
Definition cover_step (affiliate : option string)
    (slides : list (list cover_shape)) : list (list cover_shape) :=
  match affiliate with
  | Some a => if truthy a then replace_affiliate_in_title_slide a slides else slides
  | None => slides
  end.

End Generator.

(* ------------------------------------------------------------------ *)
(** ** Statements' vocabulary *)

Module SpecDefs.
Import Resolver.

(** Keep the non-empty names of [xs] not seen before, in order. *)
Fixpoint dedup_from (acc : list string) (xs : list string) : list string :=
  match xs with
  | [] => acc
  | x :: r =>
    if truthy x && negb (mem x acc) then dedup_from (acc ++ [x])%list r
    else dedup_from acc r
  end.

(** The requested columns that matched, in the caller's order, each
    matched column once. *)
Definition requested_order (avail cols : list string) : list string :=
  dedup_from [] (map (match_column avail) cols).

(** [_get_table_data] once the source entry is fixed. *)
Definition resolve_entry (e : entry) (m : mapping) (want_map : bool) : resolved :=
  match locate_in_entry e m with
  | LFrame df => select_and_cap df m want_map
  | LDone r => r
  end.

(** The row count of a resolved table. *)
Definition rows_of (r : resolved) : option nat :=
  option_map (fun df => length (index df)) (result_frame r).

End SpecDefs.

(* ------------------------------------------------------------------ *)
(** ** [PPTGenerator]: the chart axes of the slide generators *)

Module Charts.
Import Resolver.

(** [str(c).strip().lower()] *)
Definition norm (s : string) : string := lower (strip s).

(** The [column_mapping] the chart code builds when [_get_table_data]
    returns a bare DataFrame: for [i < len(actual_columns)], the [i]-th
    requested column maps to the [i]-th column of the data. *)
Fixpoint positional_map (req actual : list string) (d : list (string * string))
  : list (string * string) :=
  match req, actual with
  | r :: rs, a :: acts => positional_map rs acts (dict_set r a d)
  | _, _ => d
  end.

(** [column_mapping.get(k)]; [""] stands for [None] (both are falsy). *)
Definition get_col (k : string) (cmap : list (string * string)) : string :=
  match assoc k cmap with Some v => v | None => "" end.

(** [actual_x_column]: the mapped column, else the first column equal to
    [x_column] up to case and blanks, else the first column. *)
Definition resolve_x (cols : list string) (cmap : list (string * string)) (x : string) : string :=
  let a := get_col x cmap in
  let a := if truthy a then a
           else first_or_empty (fun c => String.eqb (norm c) (norm x)) cols in
  if truthy a then a
  else match cols with c :: _ => c | [] => "" end.

(** [actual_y] for one requested Y column. *)
Definition resolve_y (cols : list string) (cmap : list (string * string)) (ax y : string) : string :=
  let a := get_col y cmap in
  if truthy a then a
  else first_or_empty (fun c => String.eqb (norm c) (norm y) && negb (String.eqb c ax)) cols.

(** The loop building [actual_y_columns]. *)
Fixpoint collect_y (cols : list string) (cmap : list (string * string)) (ax : string)
    (ys acc : list string) : list string :=
  match ys with
  | [] => acc
  | y :: r =>
    let a := resolve_y cols cmap ax y in
    if truthy a && negb (String.eqb a ax) && negb (mem a acc)
    then collect_y cols cmap ax r (acc ++ [a])%list
    else collect_y cols cmap ax r acc
  end.

(** [actual_y_columns], with the fallback to every column but X. *)
Definition resolve_ys (cols : list string) (cmap : list (string * string)) (ax : string)
    (ys : list string) : list string :=
  match collect_y cols cmap ax ys [] with
  | [] => filter (fun c => negb (String.eqb c ax)) cols
  | acc => acc
  end.

(** The chart block of [_generate_content_slide] and
    [_generate_table_slide] up to the [add_chart] call: [Some (x, ys, df)]
    when [add_chart] is called on the data [df] with X column [x] and Y
    columns [ys], [None] when the block gives up before (the chart then
    fails). [ys] is the [y_columns] list the code iterates (a plain string
    is the one-element list). The chart mapping has no filters and no
    [max_rows]; a raise of [_get_table_data] is caught by the block. *)
Definition chart_call (data : store) (ds sheet : option string) (x : string) (ys : list string)
  : option (string * list string * frame) :=
  if truthy x && negb (match ys with [] => true | _ => false end) then
    let m := mkMapping ds sheet [] (Some (x :: ys)) None in
    let got := match get_table_data data m true with
               | RFrameMap df cmap => Some (df, cmap)
               | RFrame df => Some (df, positional_map (x :: ys) (labels df) [])
               | _ => None
               end in
    match got with
    | None => None
    | Some (df, cmap) =>
      if (0 <? length (index df))%nat && (0 <? length (columns df))%nat then
        let ax := resolve_x (labels df) cmap x in
        let ays := resolve_ys (labels df) cmap ax ys in
        if truthy ax && negb (match ays with [] => true | _ => false end)
           && (0 <? length (index df))%nat
        then Some (ax, ays, df) else None
      else None
    end
  else None.

End Charts.

(* ------------------------------------------------------------------ *)
(** ** [PPTGenerator._clean_text] and the text lookups *)

Module TextData.
Import Resolver.

(** [PPTGenerator._clean_text] on a cell value. *)
Definition clean_text (v : value) : string :=
  let s := lower (py_str v) in
  if isna v || String.eqb s "nan" || String.eqb s "none" || String.eqb s "nat" then ""
  else strip (py_str v).

(** The exception of [list(...)[0]] and [series.iloc[0]] on empty input. *)
Inductive lookup_error := IndexError.

(** [df[column]] as the first column with that label; a [None] column
    is not a column name. *)
Definition column_of (df : frame) (c : option string) : option (list value) :=
  match c with Some c => assoc c (columns df) | None => None end.

Section Lookups.

(** [str(df[column].sum())] and [str(df[column].mean())], as pandas
    computes them. *)
Variable sum_str : list value -> string.
Variable mean_str : list value -> string.
(** [df[column].astype(str).tolist()] *)
Variable series_str : list value -> list string.

(** The aggregate branch shared by the text lookups. *)
Definition aggregate_text (agg : string) (col : list value) : lookup_error + string :=
  if String.eqb agg "sum" then inr (sum_str col)
  else if String.eqb agg "mean" then inr (mean_str col)
  else match col with v :: _ => inr (py_str v) | [] => inl IndexError end.

(** [PPTBuilder._get_text_value]: only a DataFrame entry is read; the
    result is [mapping.get("default_value")] otherwise. *)
Definition get_text_value (data : store) (ds col : option string) (agg : string)
    (default : option string) : lookup_error + option string :=
  match ds with
  | Some d =>
    match assoc d data with
    | Some (ETable df) =>
      match column_of df col with
      | Some c => match aggregate_text agg c with inl e => inl e | inr s => inr (Some s) end
      | None => inr default
      end
    | _ => inr default
    end
  | None => inr default
  end.

(** [df = list(df.values())[0]] for a workbook entry. *)
Definition first_sheet (e : entry) : lookup_error + frame :=
  match e with
  | ETable df => inr df
  | ESheets ((_, df) :: _) => inr df
  | ESheets [] => inl IndexError
  end.

(** [PPTGenerator._get_text_from_data] *)
Definition get_text_from_data (data : store) (ds col : option string) (agg : string)
    (default : string) : lookup_error + string :=
  match ds with
  | Some d =>
    match assoc d data with
    | Some e =>
      match first_sheet e with
      | inl err => inl err
      | inr df => match column_of df col with
                  | Some c => aggregate_text agg c
                  | None => inr default
                  end
      end
    | None => inr default
    end
  | None => inr default
  end.

(** [PPTGenerator._get_list_from_data] *)
Definition get_list_from_data (data : store) (ds col : option string)
    (default : list string) : lookup_error + list string :=
  match ds with
  | Some d =>
    match assoc d data with
    | Some e =>
      match first_sheet e with
      | inl err => inl err
      | inr df => match column_of df col with
                  | Some c => inr (series_str c)
                  | None => inr default
                  end
      end
    | None => inr default
    end
  | None => inr default
  end.

End Lookups.

End TextData.

(* ------------------------------------------------------------------ *)
(** ** Vocabulary of the further properties *)

Module FrameFacts.
Import Resolver.




(** Strategy 3's candidates: a column containing the request or
    contained in it, after lowering and stripping. *)
Definition partial_candidate (un a : string) : bool :=
  let an := lower (strip a) in
  contains an un || contains un an.

(** The row cap of [_get_table_data] when every column is kept:
    [df.head(max_rows)] unless [max_rows] is missing or [0]. *)
Definition cap_rows (df : frame) (max_rows : option Z) : frame :=
  match max_rows with
  | Some n => if (n =? 0)%Z then df else head df n
  | None => df
  end.

(** The return of [_get_table_data] when every column is kept. *)
Definition all_columns_result (df : frame) (max_rows : option Z) (want_map : bool) : resolved :=
  let df' := cap_rows df max_rows in
  if want_map then RFrameMap df' (identity_map (labels df')) else RFrame df'.

(** What [_replace_affiliate_in_title_slide] may not change in a shape:
    the run count of every paragraph of a text frame, or the whole of a
    shape without one. *)
Definition shape_outline (s : Generator.cover_shape) : list nat + list string :=
  match s with
  | Generator.WithTextFrame ps => inl (map (@length string) ps)
  | Generator.NoTextFrame rs => inr rs
  end.

(** The same mapping with no column selection. *)
Definition without_columns (m : mapping) : mapping :=
  mkMapping (m_data_source m) (m_sheet m) (m_filters m) None (m_max_rows m).

End FrameFacts.


(* ================================================================== *)
(** * Theorems *)

Import Resolver SpecDefs.

(** ** Sample inputs *)

(** The table of scenario A of the specification. *)
Definition sales_q1 : frame :=
  mkFrame [0; 1; 2]%Z
    [("Region", [VStr "East"; VStr "West"; VStr "TOTAL"]);
     ("Total", [VInt 100; VInt 200; VInt 300])].

Definition store_a : store := [("Sales", ESheets [("Q1", sales_q1)])].

Definition mapping_of (ds : string) (sheet : option string) (fs : list filter_def)
    (cols : option (list string)) (mr : option Z) : mapping :=
  mkMapping (Some ds) sheet fs cols mr.

(** A store whose only source is a workbook with one sheet. *)
Definition text_deck : store := [("Deck", ESheets [("S1", sales_q1)])].

Import RowTypes NumFormat.

(** ** Further inputs and reference definitions *)

(** Every entry of [column_mapping_dict] is the match of its key. *)
Definition cmap_inv (avail : list string) (cmap : list (string * string)) : Prop :=
  forall k v, assoc k cmap = Some v -> v = match_column avail k /\ truthy v = true.

Definition ys_of (cf : list (string * string)) (u : string) : string :=
  match assoc u cf with Some v => v | None => "" end.

(** [ys] agrees with [xs] up to entries that [dedup_from] drops anyway. *)
Fixpoint dedup_agree (acc : list string) (xs ys : list string) : Prop :=
  match xs, ys with
  | [], [] => True
  | x :: xs', y :: ys' =>
    (y = x \/ (y = "" /\ (truthy x = false \/ mem x acc = true))) /\
    dedup_agree (if truthy x && negb (mem x acc) then (acc ++ [x])%list else acc) xs' ys'
  | _, _ => False
  end.

(** The statement of C1 as the claim words it, for a table whose column
    names may repeat: the columns of the result are the requested
    matches, deduplicated, in the caller's order. *)
Definition c1_statement : Prop :=
  forall data m b df cols,
    locate data m = LFrame df -> m_columns m = Some cols ->
    (exists u, In u cols /\ truthy (match_column (labels df) u) = true) ->
    exists r, result_frame (get_table_data data m b) = Some r /\
              labels r = requested_order (labels df) cols.

(** A table whose label "Region" is carried by two columns. *)
Definition dup_region : frame :=
  mkFrame [0]%Z [("Region", [VStr "East"]); ("Region", [VStr "E"]); ("Total", [VInt 1])].

Definition store_sales : store :=
  [("Sales", ETable (mkFrame [0]%Z [("Amount", [VInt 100])]))].

(** A two-row table whose first row is a named subtotal line. *)
Definition region_total_rows : frame :=
  mkFrame [0; 1]%Z
    [("Name", [VStr "Region Total"; VStr "East"]);
     ("Q1", [VInt 5; VInt 1]);
     ("Q2", [VInt 6; VInt 2])].

(** A row with a missing name, a missing second value and a third value. *)
Definition unnamed_rows : frame :=
  mkFrame [0; 1]%Z
    [("Name", [VNaN; VStr "East"]);
     ("Q1", [VNaN; VInt 1]);
     ("Q2", [VInt 7; VInt 2])].

(** The classification of add_table read with the row's position in
    place of its index label. *)
Definition design_classify (is_last : bool) (ncols : nat) (row : list value) : row_type :=
  let first := first_col_value row in
  if contains first "TOTAL" then
    if startswith first "AIL" || startswith first "TOTAL" || startswith first "GRAND" || is_last
    then Total else Subtotal
  else if (second_missing row || String.eqb (second_col_value row) "") &&
          truthy first && negb (String.eqb first "NAN") && has_data row ncols
  then Subtotal
  else Regular.

(** Every character of the string satisfies [p]. *)
Fixpoint str_all (p : ascii -> bool) (s : string) : bool :=
  match s with
  | EmptyString => true
  | String c r => p c && str_all p r
  end.

(** The characters of a rendered number: digits, '-' and '.'. *)
Definition numeric_char (c : ascii) : bool :=
  let n := nat_of_ascii c in
  ((48 <=? n) && (n <=? 57))%nat || (n =? 45)%nat || (n =? 46)%nat.

(** ** Lemmas on the resolver's helpers *)

Lemma mem_In (x : string) (l : list string) : mem x l = true <-> In x l.
Proof.
  unfold mem. rewrite existsb_exists. split.
  - intros [y [Hy Heq]]. apply String.eqb_eq in Heq. subst. exact Hy.
  - intros H. exists x. split; [exact H | apply String.eqb_refl].
Qed.

Lemma truthy_empty : truthy "" = false.
Proof. reflexivity. Qed.

Lemma first_or_empty_in (p : string -> bool) (l : list string) :
  truthy (first_or_empty p l) = true -> In (first_or_empty p l) l.
Proof.
  unfold first_or_empty. destruct (find p l) eqn:E.
  - intros _. eapply find_some. exact E.
  - discriminate.
Qed.

Lemma partial_match_in (un : string) (avail : list string) (matched : string) :
  partial_match un avail matched = matched \/ In (partial_match un avail matched) avail.
Proof.
  revert matched. induction avail as [|a r IH]; intros matched; simpl.
  - left. reflexivity.
  - destruct (contains _ un || contains un _);
      [destruct (negb (truthy matched) || _)|].
    + destruct (IH a) as [H|H]; right; [rewrite H; left | right]; auto.
    + destruct (IH matched) as [H|H]; [left | right; right]; auto.
    + destruct (IH matched) as [H|H]; [left | right; right]; auto.
Qed.

(** A successful match is one of the available columns. *)
Lemma match_column_in (avail : list string) (u : string) :
  truthy (match_column avail u) = true -> In (match_column avail u) avail.
Proof.
  unfold match_column.
  set (m1 := if mem (strip u) avail then strip u else "").
  assert (H1 : truthy m1 = true -> In m1 avail).
  { subst m1. destruct (mem (strip u) avail) eqn:E.
    - intros _. apply mem_In. exact E.
    - discriminate. }
  set (m2 := if truthy m1 then m1 else first_or_empty _ avail).
  assert (H2 : truthy m2 = true -> In m2 avail).
  { subst m2. destruct (truthy m1) eqn:E; [auto | apply first_or_empty_in]. }
  set (m3 := if truthy m2 then m2 else partial_match _ avail "").
  assert (H3 : truthy m3 = true -> In m3 avail).
  { subst m3. destruct (truthy m2) eqn:E; [auto|].
    intros Ht. destruct (partial_match_in (strip (lower (strip u))) avail "") as [H|H].
    - rewrite H in Ht. discriminate.
    - exact H. }
  destruct (truthy m3) eqn:E; [auto | apply first_or_empty_in].
Qed.

Lemma assoc_dict_set (k u w : string) (d : list (string * string)) :
  assoc k (dict_set u w d) = if String.eqb k u then Some w else assoc k d.
Proof.
  induction d as [|[k' v'] r IH]; simpl.
  - reflexivity.
  - destruct (String.eqb u k') eqn:E1.
    + apply String.eqb_eq in E1. subst k'. simpl. destruct (String.eqb k u); reflexivity.
    + simpl. destruct (String.eqb k k') eqn:E2.
      * apply String.eqb_eq in E2. subst k'.
        destruct (String.eqb k u) eqn:E3; [|reflexivity].
        apply String.eqb_eq in E3. subst u. rewrite String.eqb_refl in E1. discriminate.
      * exact IH.
Qed.

Lemma match_loop_fst (avail cols matched : list string) cmap :
  fst (match_loop avail cols matched cmap) = dedup_from matched (map (match_column avail) cols).
Proof.
  revert matched cmap. induction cols as [|u r IH]; intros matched cmap; simpl.
  - reflexivity.
  - destruct (truthy (match_column avail u)) eqn:T; simpl;
      [destruct (mem (match_column avail u) matched) eqn:M; simpl|]; apply IH.
Qed.

(** Keys of [column_mapping_dict] are never removed. *)
Lemma match_loop_keys (avail cols matched : list string) cmap k :
  assoc k cmap <> None -> assoc k (snd (match_loop avail cols matched cmap)) <> None.
Proof.
  revert matched cmap. induction cols as [|u r IH]; intros matched cmap H; simpl.
  - exact H.
  - destruct (truthy (match_column avail u));
      [destruct (mem (match_column avail u) matched)|]; apply IH; auto.
    rewrite assoc_dict_set. destruct (String.eqb k u); [discriminate | exact H].
Qed.

Lemma match_loop_inv (avail cols matched : list string) cmap :
  cmap_inv avail cmap -> cmap_inv avail (snd (match_loop avail cols matched cmap)).
Proof.
  revert matched cmap. induction cols as [|u r IH]; intros matched cmap H; simpl.
  - exact H.
  - destruct (truthy (match_column avail u)) eqn:T;
      [destruct (mem (match_column avail u) matched)|]; apply IH; auto.
    intros k v Hk. rewrite assoc_dict_set in Hk.
    destruct (String.eqb k u) eqn:E.
    + apply String.eqb_eq in E. subst k. injection Hk as <-. auto.
    + apply H. exact Hk.
Qed.

Lemma dedup_agree_eq (acc xs ys : list string) :
  dedup_agree acc xs ys -> dedup_from acc xs = dedup_from acc ys.
Proof.
  revert acc ys. induction xs as [|x xs IH]; intros acc ys H; destruct ys as [|y ys];
    simpl in *; try contradiction; auto.
  destruct H as [[<- | [-> [Hx | Hx]]] Ht].
  - destruct (truthy y && negb (mem y acc)); apply IH; exact Ht.
  - rewrite Hx in *. simpl in *. apply IH. exact Ht.
  - rewrite Hx in *. rewrite andb_false_r in *. apply IH. exact Ht.
Qed.

Lemma match_loop_agree (avail cols matched : list string) cmap :
  cmap_inv avail cmap ->
  dedup_agree matched (map (match_column avail) cols)
    (map (ys_of (snd (match_loop avail cols matched cmap))) cols).
Proof.
  revert matched cmap. induction cols as [|u r IH]; intros matched cmap Hinv; simpl.
  - exact I.
  - set (mc := match_column avail u).
    assert (Hcf : forall matched' cmap', cmap_inv avail cmap' ->
              ys_of (snd (match_loop avail r matched' cmap')) u = mc \/
              ys_of (snd (match_loop avail r matched' cmap')) u = "").
    { intros matched' cmap' Hi. unfold ys_of.
      destruct (assoc u (snd (match_loop avail r matched' cmap'))) eqn:A; [|right; reflexivity].
      left. apply (match_loop_inv avail r matched' cmap' Hi) in A. apply A. }
    destruct (truthy mc) eqn:T.
    + destruct (mem mc matched) eqn:M; simpl.
      * split.
        -- destruct (Hcf matched cmap Hinv) as [H|H]; [left; exact H|].
           right. split; [exact H | right; first [exact M | reflexivity]].
        -- apply IH. exact Hinv.
      * assert (Hi' : cmap_inv avail (dict_set u mc cmap)).
        { intros k v Hk. rewrite assoc_dict_set in Hk.
          destruct (String.eqb k u) eqn:E.
          - apply String.eqb_eq in E. subst k. injection Hk as <-. auto.
          - apply Hinv. exact Hk. }
        split.
        -- left. unfold ys_of.
           assert (Hk : assoc u (snd (match_loop avail r (matched ++ [mc])%list (dict_set u mc cmap))) <> None).
           { apply match_loop_keys. rewrite assoc_dict_set, String.eqb_refl. discriminate. }
           destruct (assoc u _) eqn:A; [|contradiction].
           apply (match_loop_inv avail r _ _ Hi') in A. destruct A as [A _]. rewrite A. reflexivity.
        -- apply IH. exact Hi'.
    + simpl. split.
      * destruct (Hcf matched cmap Hinv) as [H|H]; [left; exact H|].
        right. split; [exact H | left; reflexivity].
      * apply IH. exact Hinv.
Qed.

Lemma order_loop_dedup (cols : list string) cf (acc : list string) :
  (forall k v, assoc k cf = Some v -> truthy v = true) ->
  order_loop cols cf acc = dedup_from acc (map (ys_of cf) cols).
Proof.
  intros Ht. revert acc. induction cols as [|u r IH]; intros acc; simpl.
  - reflexivity.
  - destruct (assoc u cf) eqn:A.
    + assert (Hy : ys_of cf u = s) by (unfold ys_of; rewrite A; reflexivity).
      rewrite Hy, (Ht _ _ A). simpl. destruct (mem s acc); simpl; apply IH.
    + assert (Hy : ys_of cf u = "") by (unfold ys_of; rewrite A; reflexivity).
      rewrite Hy. simpl. apply IH.
Qed.

Lemma dedup_from_prefix (acc xs : list string) : exists t, dedup_from acc xs = (acc ++ t)%list.
Proof.
  revert acc. induction xs as [|x r IH]; intros acc; simpl.
  - exists []. rewrite app_nil_r. reflexivity.
  - destruct (truthy x && negb (mem x acc)).
    + destruct (IH (acc ++ [x])%list) as [t Ht]. exists (x :: t).
      rewrite Ht, <- app_assoc. reflexivity.
    + apply IH.
Qed.

Lemma dedup_from_keeps (acc xs : list string) x :
  In x xs -> truthy x = true -> In x (dedup_from acc xs).
Proof.
  revert acc. induction xs as [|y r IH]; intros acc Hin Ht; simpl in *.
  - contradiction.
  - destruct Hin as [-> | Hin].
    + rewrite Ht. destruct (mem x acc) eqn:M; simpl.
      * destruct (dedup_from_prefix acc r) as [t ->]. apply in_or_app. left.
        apply mem_In. exact M.
      * destruct (dedup_from_prefix (acc ++ [x])%list r) as [t ->].
        apply in_or_app. left. apply in_or_app. right. left. reflexivity.
    + destruct (truthy y && negb (mem y acc)); apply IH; auto.
Qed.

Lemma dedup_from_elems (acc xs : list string) x :
  In x (dedup_from acc xs) -> In x acc \/ (In x xs /\ truthy x = true).
Proof.
  revert acc. induction xs as [|y r IH]; intros acc H; simpl in *.
  - left. exact H.
  - destruct (truthy y) eqn:T; [destruct (mem y acc)|]; simpl in H.
    + destruct (IH acc H) as [H1|[H1 H2]]; [left | right]; auto.
    + destruct (IH _ H) as [H1|[H1 H2]].
      * apply in_app_or in H1. destruct H1 as [H1|[<-|[]]]; [left; exact H1|].
        right. split; [left; reflexivity | exact T].
      * right. split; [right; exact H1 | exact H2].
    + destruct (IH acc H) as [H1|[H1 H2]]; [left | right]; auto.
Qed.

Lemma filter_label_unique (cs : list (string * list value)) l :
  NoDup (map fst cs) -> In l (map fst cs) ->
  map fst (filter (fun '(l', _) => String.eqb l l') cs) = [l].
Proof.
  induction cs as [|[l' c] r IH]; simpl; intros Hnd Hin.
  - contradiction.
  - inversion Hnd as [|? ? Hnot Hnd']; subst.
    destruct (String.eqb l l') eqn:E.
    + apply String.eqb_eq in E. subst l'. simpl. f_equal.
      clear IH Hin Hnd Hnd'. induction r as [|[l2 c2] r IHr]; simpl in *.
      * reflexivity.
      * destruct (String.eqb l l2) eqn:E2.
        -- apply String.eqb_eq in E2. subst. exfalso. apply Hnot. left. reflexivity.
        -- apply IHr. intros H. apply Hnot. right. exact H.
    + destruct Hin as [Hin|Hin].
      * subst. rewrite String.eqb_refl in E. discriminate.
      * apply IH; assumption.
Qed.

Lemma select_labels_labels (df : frame) (ls : list string) :
  NoDup (labels df) -> (forall l, In l ls -> In l (labels df)) ->
  labels (select_labels df ls) = ls.
Proof.
  intros Hnd Hin. unfold labels, select_labels. simpl.
  induction ls as [|l r IH]; simpl.
  - reflexivity.
  - rewrite map_app. rewrite filter_label_unique; auto.
    + simpl. f_equal. apply IH. intros x Hx. apply Hin. right. exact Hx.
    + apply Hin. left. reflexivity.
Qed.

(** ** C1: order of the selected columns *)

(** C1 counterexample: requesting ["Region"] from a table with two
    columns labelled "Region" selects both, so the result's columns are
    ["Region"; "Region"], not the deduplicated ["Region"]. *)
Lemma c1_duplicate_labels_counterexample : ~ c1_statement.
Proof.
  intros H.
  set (data := [("T", ETable dup_region)]).
  set (m := mapping_of "T" None [] (Some ["Region"]) None).
  destruct (H data m false dup_region ["Region"]) as [r [Hr Hl]].
  - reflexivity.
  - reflexivity.
  - exists "Region". split; [left; reflexivity | reflexivity].
  - vm_compute in Hr. injection Hr as <-. vm_compute in Hl. discriminate.
Qed.

(** C1 (as amended): when the located table has distinct column names
    and at least one requested column matches, the result's columns are
    exactly the matched columns, each once, in the caller's requested
    order, and all the located table's rows are kept. *)
Theorem get_table_data_column_order data m b df cols :
  locate data m = LFrame df -> m_columns m = Some cols ->
  NoDup (labels df) ->
  (exists u, In u cols /\ truthy (match_column (labels df) u) = true) ->
  exists r, result_frame (get_table_data data m b) = Some r /\
            labels r = requested_order (labels df) cols /\
            index r = index df.
Proof.
  intros Hloc Hcols Hnd [u0 [Hu0 Hm0]].
  unfold get_table_data. rewrite Hloc. unfold select_and_cap. rewrite Hcols.
  destruct cols as [|c0 cs]; [contradiction|].
  destruct (match_loop (labels df) (c0 :: cs) [] []) as [matched cmap] eqn:E.
  assert (Hm : matched = requested_order (labels df) (c0 :: cs)).
  { change matched with (fst (matched, cmap)). rewrite <- E. apply match_loop_fst. }
  assert (Hinv0 : cmap_inv (labels df) []) by (intros k v Hk; discriminate).
  assert (Hcmap : cmap = snd (match_loop (labels df) (c0 :: cs) [] [])) by (rewrite E; reflexivity).
  assert (Hord : order_loop (c0 :: cs) cmap [] = requested_order (labels df) (c0 :: cs)).
  { rewrite order_loop_dedup.
    - unfold requested_order. symmetry. apply dedup_agree_eq.
      rewrite Hcmap. apply match_loop_agree. exact Hinv0.
    - intros k v Hk. rewrite Hcmap in Hk. apply (match_loop_inv (labels df) (c0 :: cs) [] [] Hinv0) in Hk.
      apply Hk. }
  assert (Hne : matched <> []).
  { rewrite Hm. unfold requested_order. intros Hnil.
    assert (Hin : In (match_column (labels df) u0) (dedup_from [] (map (match_column (labels df)) (c0 :: cs)))).
    { apply dedup_from_keeps; [apply in_map; exact Hu0 | exact Hm0]. }
    rewrite Hnil in Hin. contradiction. }
  destruct matched as [|x xs]; [contradiction|].
  exists (select_labels df (order_loop (c0 :: cs) cmap [])).
  split; [destruct b; reflexivity|]. split; [|reflexivity].
  rewrite Hord. apply select_labels_labels; [exact Hnd|].
  intros l Hl. unfold requested_order in Hl. apply dedup_from_elems in Hl.
  destruct Hl as [[]|[Hl Ht]]. apply in_map_iff in Hl. destruct Hl as [v [<- _]].
  apply match_column_in. exact Ht.
Qed.

(** Witness: scenario A, columns requested in reverse order. *)
Lemma get_table_data_column_order_witness :
  exists r,
    result_frame (get_table_data store_a
      (mapping_of "Sales" (Some "Q1") [] (Some ["Total"; "region"]) None) true) = Some r /\
    labels r = requested_order (labels sales_q1) ["Total"; "region"] /\
    index r = index sales_q1 /\ labels r = ["Total"; "Region"].
Proof.
  destruct (get_table_data_column_order store_a
      (mapping_of "Sales" (Some "Q1") [] (Some ["Total"; "region"]) None) true sales_q1
      ["Total"; "region"]) as [r [H1 [H2 H3]]].
  - reflexivity.
  - reflexivity.
  - repeat constructor; simpl; intuition discriminate.
  - exists "Total". split; [left; reflexivity | reflexivity].
  - exists r. split; [exact H1|]. split; [exact H2|]. split; [exact H3|].
    rewrite H2. vm_compute. reflexivity.
Defined.

Lemma labels_head (df : frame) (n : Z) : labels (head df n) = labels df.
Proof.
  unfold labels, head. simpl. rewrite map_map.
  apply map_ext. intros [l c]. reflexivity.
Qed.

(** ** C2: a source missing from the store *)

(** C2 counterexample: the source "Revenue" is not in the store, the
    resolver falls back to "Sales", and the filter [Amount >= "50"]
    compares an int with a str: the call raises [TypeError]. *)
Lemma c2_fallback_filter_raises :
  lookup_source store_sales "Revenue" = None /\
  get_table_data store_sales
    (mapping_of "Revenue" None [mkFilter (Some "Amount") ">=" (VStr "50")] None None) false
  = RRaise TypeError.
Proof. split; vm_compute; reflexivity. Qed.

(** C2 (as amended): for a non-empty source name that no key matches
    exactly, up to case and blanks, or as a substring, the source stage
    does not fail: with an empty store the result is the one-cell table
    [{"Message": ["No data available"]}]; with a non-empty store the
    resolver goes on with the first source exactly as if it had been
    found (sheet lookup, filters, column selection and row cap). *)
Theorem get_table_data_missing_source data m b ds :
  m_data_source m = Some ds -> truthy ds = true -> lookup_source data ds = None ->
  (data = [] -> get_table_data data m b = RFrame (message_frame "No data available")) /\
  (forall k e rest, data = (k, e) :: rest -> get_table_data data m b = resolve_entry e m b).
Proof.
  intros Hds Ht Hl. unfold get_table_data, locate. rewrite Hds, Ht, Hl. simpl.
  split.
  - intros ->. reflexivity.
  - intros k e rest ->. unfold resolve_entry. reflexivity.
Qed.

(** Witness: scenario A's store asked for "Revenue" falls back to the
    workbook "Sales" and returns its sheet "Q1". *)
Lemma get_table_data_missing_source_witness :
  get_table_data store_a (mapping_of "Revenue" (Some "Q1") [] None None) false
  = resolve_entry (ESheets [("Q1", sales_q1)]) (mapping_of "Revenue" (Some "Q1") [] None None) false
  /\ get_table_data store_a (mapping_of "Revenue" (Some "Q1") [] None None) false = RFrame sales_q1
  /\ get_table_data [] (mapping_of "Revenue" None [] None None) false
     = RFrame (message_frame "No data available").
Proof.
  split; [|split].
  - apply (proj2 (get_table_data_missing_source store_a
             (mapping_of "Revenue" (Some "Q1") [] None None) false "Revenue"
             eq_refl eq_refl ltac:(vm_compute; reflexivity))
             "Sales" (ESheets [("Q1", sales_q1)]) [] eq_refl).
  - vm_compute. reflexivity.
  - apply (proj1 (get_table_data_missing_source []
             (mapping_of "Revenue" None [] None None) false "Revenue"
             eq_refl eq_refl eq_refl) eq_refl).
Defined.

(** ** C4: row cap *)

(** C4: with columns ["Region"; "Total"] that all match and
    [max_rows = 1], the resolver returns the matched columns before the
    row cap is reached: all 3 rows come back. With [max_rows = 0] (falsy)
    no cap applies either. *)
Theorem get_table_data_max_rows_skipped :
  rows_of (get_table_data store_a
             (mapping_of "Sales" (Some "Q1") [] (Some ["Region"; "Total"]) (Some 1%Z)) false)
  = Some 3%nat /\
  rows_of (get_table_data store_a
             (mapping_of "Sales" (Some "Q1") [] None (Some 1%Z)) false)
  = Some 1%nat /\
  rows_of (get_table_data store_a
             (mapping_of "Sales" (Some "Q1") [] None (Some 0%Z)) false)
  = Some 3%nat.
Proof. vm_compute. repeat split. Qed.

(** ** C8: the typo "Regoin" *)

(** What the resolver returns for [columns = ["Regoin"]] on scenario A. *)
Lemma get_table_data_regoin :
  get_table_data store_a (mapping_of "Sales" (Some "Q1") [] (Some ["Regoin"]) None) true
  = RFrameMap sales_q1 [("Region", "Region"); ("Total", "Total")].
Proof. vm_compute. reflexivity. Qed.

(** C8 counterexample: no strategy resolves "Regoin"; the returned
    column mapping has no key "Regoin". *)
Lemma c8_regoin_not_mapped :
  ~ exists df cmap,
      get_table_data store_a (mapping_of "Sales" (Some "Q1") [] (Some ["Regoin"]) None) true
      = RFrameMap df cmap /\ assoc "Regoin" cmap = Some "Region".
Proof.
  rewrite get_table_data_regoin. intros [df [cmap [H Ha]]].
  injection H as <- <-. discriminate.
Qed.

(** C8 (as amended): on a located table with columns "Region" and
    "Total", a request for ["Regoin"] matches no column by any of the
    four strategies; the resolver falls back to all columns and returns
    the identity mapping of those columns, without a "Regoin" key. *)
Theorem get_table_data_regoin_fallback data m df :
  locate data m = LFrame df -> m_columns m = Some ["Regoin"] ->
  labels df = ["Region"; "Total"] ->
  exists df', get_table_data data m true
              = RFrameMap df' [("Region", "Region"); ("Total", "Total")] /\
              labels df' = ["Region"; "Total"].
Proof.
  intros Hloc Hcols Hl.
  assert (Hmc : match_column ["Region"; "Total"] "Regoin" = "") by (vm_compute; reflexivity).
  unfold get_table_data. rewrite Hloc. unfold select_and_cap. rewrite Hcols.
  simpl match_loop. rewrite Hl, Hmc. simpl.
  destruct (m_max_rows m) as [n|].
  - destruct (n =? 0)%Z.
    + exists df. rewrite Hl. split; reflexivity.
    + exists (head df n). rewrite labels_head, Hl. split; reflexivity.
  - exists df. rewrite Hl. split; reflexivity.
Qed.

Lemma get_table_data_regoin_fallback_witness :
  exists df', get_table_data store_a
                (mapping_of "Sales" (Some "Q1") [] (Some ["Regoin"]) (Some 2%Z)) true
              = RFrameMap df' [("Region", "Region"); ("Total", "Total")] /\
              labels df' = ["Region"; "Total"].
Proof.
  apply (get_table_data_regoin_fallback store_a
           (mapping_of "Sales" (Some "Q1") [] (Some ["Regoin"]) (Some 2%Z)) sales_q1);
    reflexivity.
Defined.

(** ** C6: row-type detection *)


(** C6 counterexample: "Region Total" (not the last row, no marker) is a
    [Subtotal] though its second column carries a value, where the claim
    gives [Regular]; a row whose first value is missing ("NAN") with a
    missing second value and a third value is [Regular] where the claim
    gives [Subtotal]. *)
Lemma c6_row_type_counterexample :
  row_types region_total_rows = [Subtotal; Regular] /\
  spec_classify false (row_cells region_total_rows 0) = Regular /\
  row_types unnamed_rows = [Regular; Regular] /\
  spec_classify false (row_cells unnamed_rows 0) = Subtotal.
Proof. vm_compute. repeat split. Qed.

Lemma combine_map_self {A B} (f : A -> B) (l : list A) :
  combine l (map f l) = map (fun x => (x, f x)) l.
Proof. induction l as [|x r IH]; simpl; [reflexivity | rewrite IH; reflexivity]. Qed.

(** C6 (as amended): on a table with the default index (labels 0..n-1),
    one class per row; the row at position [p] is [Total] when its
    stripped, uppercased first value contains TOTAL and starts with AIL,
    TOTAL or GRAND or the row is the last one, [Subtotal] when it contains
    TOTAL otherwise; a row without TOTAL is [Subtotal] when its second
    value is missing or blank, its first value is non-empty and not
    "NAN", and a column from the third on carries a non-blank value,
    [Regular] otherwise. *)
Theorem row_types_by_position (df : frame) :
  index df = map Z.of_nat (seq 0 (length (index df))) ->
  length (row_types df) = length (index df) /\
  forall p, (p < length (index df))%nat ->
    nth p (row_types df) Regular
    = design_classify (Nat.eqb p (length (index df) - 1)) (length (columns df)) (row_cells df p).
Proof.
  intros Hidx.
  remember (length (index df)) as n eqn:Hn.
  assert (Hc : combine (seq 0 n) (index df) = map (fun p => (p, Z.of_nat p)) (seq 0 n)).
  { rewrite Hidx. apply combine_map_self. }
  unfold row_types. rewrite <- Hn, Hc, map_map. split.
  - rewrite length_map, length_seq. reflexivity.
  - intros p Hp.
    rewrite (nth_indep _ Regular (classify n (length (columns df)) (Z.of_nat 0) (row_cells df 0)))
      by (rewrite length_map, length_seq; exact Hp).
    rewrite (map_nth (fun p => classify n (length (columns df)) (Z.of_nat p) (row_cells df p))).
    rewrite seq_nth by exact Hp. simpl (0 + p)%nat.
    assert (Hlast : (Z.of_nat p =? Z.of_nat n - 1)%Z = Nat.eqb p (n - 1)).
    { destruct (Nat.eqb_spec p (n - 1)) as [E|E]; apply Z.eqb_eq || apply Z.eqb_neq; lia. }
    unfold classify, design_classify. rewrite Hlast.
    destruct (contains _ "TOTAL"); [destruct (_ || _ || _); reflexivity|].
    destruct (second_missing _ || _); simpl; [|reflexivity].
    destruct (truthy _); simpl; [|reflexivity].
    destruct (negb _); simpl; [|reflexivity].
    destruct (has_data _ _); reflexivity.
Qed.

(** Witness: scenario A's table; the TOTAL row is the last one. *)
Lemma row_types_by_position_witness :
  length (row_types sales_q1) = 3%nat /\
  nth 2 (row_types sales_q1) Regular = Total /\
  nth 0 (row_types sales_q1) Regular = Regular.
Proof.
  destruct (row_types_by_position sales_q1 eq_refl) as [Hl Hp].
  split; [exact Hl|]. split.
  - rewrite (Hp 2%nat) by (simpl; lia). vm_compute. reflexivity.
  - rewrite (Hp 0%nat) by (simpl; lia). vm_compute. reflexivity.
Defined.

(** The index label, not the position, decides "last row": after a
    filter has dropped label 1, the last row (label 2 of 2 rows) with a
    TOTAL name and no marker is a [Subtotal]. *)
Lemma row_types_filtered_labels :
  row_types (mkFrame [0; 2]%Z
               [("Name", [VStr "East"; VStr "Region Total"]);
                ("Q1", [VInt 1; VInt 5])])
  = [Regular; Subtotal].
Proof. vm_compute. reflexivity. Qed.

(** ** C7: percentage formatting *)


Lemma str_all_app p s t : str_all p (s ++ t) = str_all p s && str_all p t.
Proof. induction s as [|c r IH]; simpl; [reflexivity | rewrite IH, andb_assoc; reflexivity]. Qed.

Lemma Z_to_string_numeric z : str_all numeric_char (Z_to_string z) = true.
Proof.
  assert (Hu : forall d, str_all numeric_char (NilEmpty.string_of_uint d) = true).
  { induction d; simpl; auto. }
  unfold Z_to_string, NilEmpty.string_of_int. destruct (Z.to_int z); simpl; auto.
Qed.

Lemma frac_digits_numeric f num den : str_all numeric_char (frac_digits f num den) = true.
Proof.
  revert num. induction f as [|f IH]; intros num; simpl; [reflexivity|].
  destruct (num =? 0)%Z; [reflexivity|].
  rewrite str_all_app, Z_to_string_numeric, IH. reflexivity.
Qed.

Lemma py_str_numeric v x : as_number v = Some x -> str_all numeric_char (py_str v) = true.
Proof.
  destruct v; cbn [as_number]; intros H; try discriminate.
  - apply Z_to_string_numeric.
  - cbn [py_str]. unfold float_str. cbv zeta.
    rewrite !str_all_app, Z_to_string_numeric.
    destruct (Qnum q <? 0)%Z; destruct (Z.abs (Qnum q) mod Z.pos (Qden q) =? 0)%Z;
      rewrite ?frac_digits_numeric; reflexivity.
Qed.

Lemma lower_numeric s : str_all numeric_char s = true -> lower s = s.
Proof.
  unfold lower. induction s as [|c r IH]; simpl; [reflexivity|].
  intros H. apply andb_prop in H. destruct H as [Hc Hr]. rewrite IH by exact Hr.
  f_equal. unfold lower_char, numeric_char in *.
  destruct ((65 <=? nat_of_ascii c) && (nat_of_ascii c <=? 90))%nat eqn:E; [|reflexivity].
  exfalso. apply andb_prop in E. destruct E as [E1 E2].
  apply Nat.leb_le in E1. apply Nat.leb_le in E2.
  apply orb_prop in Hc. destruct Hc as [Hc|Hc]; [apply orb_prop in Hc; destruct Hc as [Hc|Hc]|].
  - apply andb_prop in Hc. destruct Hc as [_ H]. apply Nat.leb_le in H. lia.
  - apply Nat.eqb_eq in Hc. lia.
  - apply Nat.eqb_eq in Hc. lia.
Qed.

Lemma Qlt_bool_iff (x y : Q) : Qlt_bool x y = true <-> (x < y)%Q.
Proof.
  unfold Qlt_bool. destruct (Qle_bool y x) eqn:E; simpl; split; intros H.
  - discriminate.
  - apply Qle_bool_iff in E. exfalso. apply (Qlt_not_le x y H E).
  - apply Qnot_le_lt. intros H'. apply Qle_bool_iff in H'. congruence.
  - reflexivity.
Qed.

Lemma Qlt_bool_false (x y : Q) : (y <= x)%Q -> Qlt_bool x y = false.
Proof.
  intros H. destruct (Qlt_bool x y) eqn:E; [|reflexivity].
  apply Qlt_bool_iff in E. exfalso. apply (Qlt_not_le x y E H).
Qed.

(** C7: in a column formatted as "percentage", a numeric cell [v] is
    written [v*100], [v/100] or [v] with one decimal and a percent sign
    according as [v < 1], [v > 100] or [1 <= v <= 100]; 0.453, 45.3 and
    4530 all render as "45.3%". *)
Theorem percentage_cell_text v x :
  as_number v = Some x ->
  ((x < 1)%Q -> formatted_cell_text "percentage" v = fmt_fixed 1 false (x * 100) ++ "%") /\
  ((100 < x)%Q -> formatted_cell_text "percentage" v = fmt_fixed 1 false (x / 100) ++ "%") /\
  ((1 <= x <= 100)%Q -> formatted_cell_text "percentage" v = fmt_fixed 1 false x ++ "%") /\
  formatted_cell_text "percentage" (VFloat (453 # 1000)) = "45.3%" /\
  formatted_cell_text "percentage" (VFloat (453 # 10)) = "45.3%" /\
  formatted_cell_text "percentage" (VInt 4530) = "45.3%".
Proof.
  intros Hx.
  assert (Hna : isna v = false) by (destruct v; cbn [as_number isna] in *; congruence).
  assert (Hnum : str_all numeric_char (py_str v) = true) by (eapply py_str_numeric; eauto).
  assert (Hl : lower (py_str v) = py_str v) by (apply lower_numeric; exact Hnum).
  assert (Hs : forall t, str_all numeric_char t = false -> String.eqb (py_str v) t = false).
  { intros t Ht. destruct (String.eqb_spec (py_str v) t) as [E|E]; [|reflexivity].
    rewrite E in Hnum. congruence. }
  assert (Hf : formatted_cell_text "percentage" v = format_typed "percentage" x v).
  { unfold formatted_cell_text. cbv zeta. rewrite Hna, Hl, !Hs by reflexivity.
    cbn [orb]. rewrite Hx. reflexivity. }
  rewrite Hf. unfold format_typed. rewrite String.eqb_refl.
  split; [|split; [|split]].
  - intros H. rewrite (proj2 (Qlt_bool_iff x 1) H). reflexivity.
  - intros H. rewrite (Qlt_bool_false x 1).
    + rewrite (proj2 (Qlt_bool_iff 100 x) H). reflexivity.
    + apply Qle_trans with 100%Q; [discriminate | apply Qlt_le_weak; exact H].
  - intros [H1 H2]. rewrite (Qlt_bool_false x 1 H1), (Qlt_bool_false 100 x H2). reflexivity.
  - repeat split; vm_compute; reflexivity.
Qed.

(** Witness: the three inputs of the specification. *)
Lemma percentage_cell_text_witness :
  formatted_cell_text "percentage" (VFloat (453 # 1000))
    = fmt_fixed 1 false ((453 # 1000) * 100) ++ "%" /\
  formatted_cell_text "percentage" (VFloat (453 # 10)) = fmt_fixed 1 false (453 # 10) ++ "%" /\
  formatted_cell_text "percentage" (VInt 4530) = fmt_fixed 1 false (inject_Z 4530 / 100) ++ "%".
Proof.
  split; [|split].
  - apply (proj1 (percentage_cell_text (VFloat (453 # 1000)) (453 # 1000) eq_refl)).
    vm_compute. reflexivity.
  - apply (proj1 (proj2 (proj2 (percentage_cell_text (VFloat (453 # 10)) (453 # 10) eq_refl)))).
    split; vm_compute; discriminate.
  - apply (proj1 (proj2 (percentage_cell_text (VInt 4530) (inject_Z 4530) eq_refl))).
    vm_compute. reflexivity.
Defined.

(** ** C5: the shrink-to-fit passes of [add_table] *)

(** C5: the sizing code of [add_table] raises for the bounding box
    [top = 7.2], [height = 1] with one data row: the available height
    [min(1, 7.5 - 7.2 - 0.5) = -0.2] is negative, the first shrink pass
    leaves the table taller than it, and the second pass reads
    [data_font_size] before its first assignment. *)
Lemma table_height_unbound_font :
  Layout.table_height 1 (72 # 10) 1 = inl UnboundLocalError.
Proof. vm_compute. reflexivity. Qed.

(** ** C3: pages with an enabled chart *)

(** C3: when the chart of a page is enabled, the table or content body is
    never placed, whatever the chart outcome. A table page whose chart
    failed gets the "Chart data unavailable" text; a content page whose
    chart failed gets nothing after its title and subtitle. *)
Theorem chart_enabled_pages k o body :
  Generator.after_title k true o body = Generator.after_title k true o [] /\
  Generator.after_title Generator.KTable true Generator.ChartFailed body
    = [Generator.TextBox "Chart data unavailable"] /\
  Generator.after_title Generator.KContent true Generator.ChartFailed body = [] /\
  Generator.after_title k true Generator.ChartAdded body = [Generator.ChartShape].
Proof.
  repeat split; destruct k; reflexivity.
Qed.

(** ** C9: the slide boundary *)

(** C9 (counterexample): a table page whose generator placed its title
    and then raised (for example from [add_table]) keeps what was placed;
    the fallback title and notice are added to that slide, which is not
    the minimal title-and-notice slide. *)
Lemma c9_partial_slide_kept :
  let cfg := Generator.mkCfg 1 (Some "Quarterly Sales") in
  Generator.generate_slides (fun _ => false)
    (fun _ => ([Generator.TextBox "Quarterly Sales"], true)) (fun _ => false) [cfg] []
  = [[Generator.TextBox "Quarterly Sales"; Generator.TextBox "Quarterly Sales";
      Generator.TextBox Generator.unavailable_notice]] /\
  Generator.generate_slides (fun _ => false)
    (fun _ => ([Generator.TextBox "Quarterly Sales"], true)) (fun _ => false) [cfg] []
  <> [Generator.fallback_shapes cfg].
Proof.
  simpl. split; [reflexivity | discriminate].
Qed.

(** C9: the slide loop never stops early and handles the configurations
    in order: the deck grows by what [_generate_slide] builds for each
    configuration alone, one slide per configuration except when both the
    slide creation and the fallback [add_slide(None)] raise. When the
    slide could not be created the new slide is the fallback slide (the
    title when truthy, then the notice); when its population raised, the
    fallback title and notice follow what was already placed on it. *)
Theorem generate_slides_one_per_config prep pop fb cfgs deck :
  Generator.generate_slides prep pop fb cfgs deck
    = (deck ++ flat_map (fun c => Generator.generate_slide prep pop fb c []) cfgs)%list /\
  length (Generator.generate_slides prep pop fb cfgs deck)
    = (length deck + length (filter (fun c => negb (prep c && fb c)) cfgs))%nat /\
  (forall c, prep c = true -> fb c = false ->
     Generator.generate_slide prep pop fb c [] = [Generator.fallback_shapes c]) /\
  (forall c, prep c = true -> fb c = true ->
     Generator.generate_slide prep pop fb c [] = []) /\
  (forall c placed, prep c = false -> pop c = (placed, true) ->
     Generator.generate_slide prep pop fb c [] = [(placed ++ Generator.fallback_shapes c)%list]) /\
  (forall c placed, prep c = false -> pop c = (placed, false) ->
     Generator.generate_slide prep pop fb c [] = [placed]).
Proof.
  assert (Hone : forall c d, Generator.generate_slide prep pop fb c d
                             = (d ++ Generator.generate_slide prep pop fb c [])%list).
  { intros c d. unfold Generator.generate_slide.
    destruct (prep c); [destruct (fb c); simpl; [rewrite app_nil_r|]; reflexivity|].
    destruct (pop c) as [pl [|]]; reflexivity. }
  assert (Heq : forall cs d, Generator.generate_slides prep pop fb cs d
     = (d ++ flat_map (fun c => Generator.generate_slide prep pop fb c []) cs)%list).
  { induction cs as [|c cs IH]; intros d; simpl.
    - rewrite app_nil_r. reflexivity.
    - rewrite IH, Hone, app_assoc. reflexivity. }
  assert (Hlen : forall c, length (Generator.generate_slide prep pop fb c [])
                           = if negb (prep c && fb c) then 1%nat else 0%nat).
  { intros c. unfold Generator.generate_slide.
    destruct (prep c); [destruct (fb c); reflexivity|].
    destruct (pop c) as [pl [|]]; reflexivity. }
  split; [|split; [|split; [|split; [|split]]]].
  - apply Heq.
  - rewrite Heq, length_app. f_equal.
    induction cfgs as [|c cs IH]; simpl; [reflexivity|].
    rewrite length_app, Hlen, IH. destruct (negb (prep c && fb c)); reflexivity.
  - intros c H1 H2. unfold Generator.generate_slide. rewrite H1, H2. reflexivity.
  - intros c H1 H2. unfold Generator.generate_slide. rewrite H1, H2. reflexivity.
  - intros c placed H1 H2. unfold Generator.generate_slide. rewrite H1, H2. reflexivity.
  - intros c placed H1 H2. unfold Generator.generate_slide. rewrite H1, H2. reflexivity.
Qed.

Lemma generate_slides_one_per_config_witness :
  let cfg := Generator.mkCfg 2 None in
  Generator.generate_slide (fun _ => true) (fun _ => ([], false)) (fun _ => false) cfg []
    = [Generator.fallback_shapes cfg].
Proof.
  intros cfg.
  apply (proj1 (proj2 (proj2 (generate_slides_one_per_config
           (fun _ => true) (fun _ => ([], false)) (fun _ => false) [] [])))).
  - reflexivity.
  - reflexivity.
Defined.

(** ** C10: the cover-page token replacement *)

Lemma replace_aux_absent fuel s old new :
  contains s old = false -> replace_aux fuel s old new = s.
Proof.
  revert s; induction fuel as [|fuel IH]; intros s H; [reflexivity|].
  destruct s as [|c r]; [reflexivity|].
  cbn [contains] in H. apply orb_false_iff in H as [H1 H2].
  cbn [replace_aux]. rewrite H1. rewrite (IH r H2). reflexivity.
Qed.

Lemma string_app_empty (s : string) : (s ++ "")%string = s.
Proof. induction s as [|c s IH]; simpl; [reflexivity | rewrite IH; reflexivity]. Qed.

(** C10 (counterexample): a run that is not the token but contains it is
    changed: "AIL Report" becomes "ACME Report". *)
Lemma c10_run_containing_token :
  Generator.cover_step (Some "ACME")
    [[Generator.WithTextFrame [["AIL Report"]]]]
  = [[Generator.WithTextFrame [["ACME Report"]]]].
Proof. vm_compute. reflexivity. Qed.

(** C10: with a truthy affiliate [a], the cover step rewrites only the
    first slide: every run of a shape with a text frame becomes
    [run.replace("AIL", a)], so a run equal to "AIL" becomes [a] and a
    run without "AIL" is unchanged; shapes without a text frame and the
    other slides are left as they are. *)
Theorem cover_step_runs a first rest :
  truthy a = true ->
  Generator.cover_step (Some a) (first :: rest)
    = map (Generator.replace_in_shape a) first :: rest /\
  (forall ps, Generator.replace_in_shape a (Generator.WithTextFrame ps)
              = Generator.WithTextFrame (map (map (fun r => replace r "AIL" a)) ps)) /\
  (forall rs, Generator.replace_in_shape a (Generator.NoTextFrame rs)
              = Generator.NoTextFrame rs) /\
  replace "AIL" "AIL" a = a /\
  (forall r, contains r "AIL" = false -> replace r "AIL" a = r).
Proof.
  intros Ha. split; [|split; [|split; [|split]]].
  - unfold Generator.cover_step. rewrite Ha. reflexivity.
  - reflexivity.
  - reflexivity.
  - cbn. apply string_app_empty.
  - intros r Hr. unfold replace. apply replace_aux_absent. exact Hr.
Qed.

Lemma cover_step_runs_witness :
  Generator.cover_step (Some "ACME") [[Generator.WithTextFrame [["AIL"; "Report"]]]]
    = [map (Generator.replace_in_shape "ACME") [Generator.WithTextFrame [["AIL"; "Report"]]]].
Proof.
  apply (proj1 (cover_step_runs "ACME" [Generator.WithTextFrame [["AIL"; "Report"]]] [] eq_refl)).
Defined.


(* ================================================================== *)
(** * Further properties of the code *)

Import FrameFacts Charts TextData.

(** ** Stripping *)

Lemma str_app_assoc (a b c : string) : ((a ++ b) ++ c)%string = (a ++ (b ++ c))%string.
Proof. induction a as [|x a IH]; simpl; [reflexivity | rewrite IH; reflexivity]. Qed.

Lemma rev_str_acc (s acc : string) : rev_str s acc = (rev_str s "" ++ acc)%string.
Proof.
  revert acc. induction s as [|c r IH]; intros acc; simpl; [reflexivity|].
  rewrite (IH (String c acc)), (IH (String c "")).
  rewrite str_app_assoc. reflexivity.
Qed.

Lemma rev_str_app (s t acc : string) : rev_str (s ++ t) acc = rev_str t (rev_str s acc).
Proof. revert acc. induction s as [|c r IH]; intros acc; simpl; [reflexivity | apply IH]. Qed.

Lemma rev_str_involutive (s : string) : rev_str (rev_str s "") "" = s.
Proof.
  induction s as [|c r IH]; simpl; [reflexivity|].
  rewrite (rev_str_acc r (String c "")), rev_str_app. simpl. rewrite IH. reflexivity.
Qed.

Lemma lstrip_idem (s : string) : lstrip (lstrip s) = lstrip s.
Proof.
  induction s as [|c r IH]; simpl; [reflexivity|].
  destruct (is_space c) eqn:E; [exact IH | simpl; rewrite E; reflexivity].
Qed.

Lemma lstrip_head (s : string) c r : lstrip s = String c r -> is_space c = false.
Proof.
  induction s as [|d s IH]; simpl; [discriminate|].
  destruct (is_space d) eqn:E; [exact IH | intros H; injection H as <- _; exact E].
Qed.

Lemma lstrip_snoc (x : string) c :
  is_space c = false -> exists u, lstrip (x ++ String c "") = (u ++ String c "")%string.
Proof.
  intros Hc. induction x as [|d x IH]; simpl.
  - rewrite Hc. exists "". reflexivity.
  - destruct (is_space d); [exact IH|]. exists (String d x). reflexivity.
Qed.

Lemma rstrip_idem (s : string) : rstrip (rstrip s) = rstrip s.
Proof. unfold rstrip. rewrite rev_str_involutive, lstrip_idem. reflexivity. Qed.

Lemma lstrip_rstrip_lstrip (s : string) : lstrip (rstrip (lstrip s)) = rstrip (lstrip s).
Proof.
  destruct (lstrip s) as [|c r] eqn:E; [reflexivity|].
  apply lstrip_head in E.
  unfold rstrip. simpl. rewrite (rev_str_acc r (String c "")).
  destruct (lstrip_snoc (rev_str r "") c E) as [u ->].
  rewrite rev_str_app. simpl. rewrite E. reflexivity.
Qed.

Lemma strip_idem (s : string) : strip (strip s) = strip s.
Proof.
  unfold strip at 1 2. rewrite lstrip_rstrip_lstrip. apply rstrip_idem.
Qed.

Lemma startswith_refl (s : string) : startswith s s = true.
Proof. induction s as [|c r IH]; simpl; [reflexivity | rewrite Ascii.eqb_refl, IH; reflexivity]. Qed.

Lemma contains_refl (s : string) : contains s s = true.
Proof. destruct s; simpl; [reflexivity | rewrite Ascii.eqb_refl, startswith_refl; reflexivity]. Qed.

Lemma assoc_in {A} (k : string) (l : list (string * A)) v : assoc k l = Some v -> In (k, v) l.
Proof.
  induction l as [|[k' v'] r IH]; simpl; [discriminate|].
  destruct (String.eqb_spec k k') as [<-|_]; [intros H; injection H as <-; left; reflexivity|].
  intros H. right. apply IH. exact H.
Qed.

Lemma find_key_some {A} (p : string -> bool) (l : list (string * A)) k v :
  find_key p l = Some (k, v) -> p k = true /\ In (k, v) l.
Proof.
  induction l as [|[k' v'] r IH]; simpl; [discriminate|].
  destruct (p k') eqn:E; [intros H; injection H as <- <-; auto|].
  intros H. destruct (IH H). auto.
Qed.

Lemma find_key_none {A} (p : string -> bool) (l : list (string * A)) :
  find_key p l = None -> forall k v, In (k, v) l -> p k = false.
Proof.
  induction l as [|[k' v'] r IH]; simpl; [contradiction|].
  destruct (p k') eqn:E; [discriminate|].
  intros H k v [Hk|Hk]; [injection Hk as -> _; exact E | eapply IH; eauto].
Qed.

(** ** Source lookup and the shape of the result *)

(** [_get_table_data]'s source lookup finds nothing exactly when no key
    of the store, stripped and lowered, contains the stripped, lowered
    request or is contained in it (the partial strategy subsumes the
    exact and case-insensitive ones). *)
Theorem lookup_source_none_iff data ds :
  lookup_source data ds = None <->
  forall k e, In (k, e) data ->
    FrameFacts.partial_candidate (lower (strip ds)) k = false.
Proof.
  unfold lookup_source, FrameFacts.partial_candidate. split.
  - destruct (assoc (strip ds) data); [discriminate|].
    destruct (find_key _ data) as [[]|]; [discriminate|].
    destruct (find_key _ data) as [[]|] eqn:F; [discriminate|].
    intros _. apply (find_key_none _ _ F).
  - intros H. destruct (assoc (strip ds) data) as [e|] eqn:A.
    + apply assoc_in in A. specialize (H _ _ A). rewrite strip_idem, contains_refl in H.
      discriminate.
    + destruct (find_key _ data) as [[k e]|] eqn:F.
      * apply find_key_some in F as [Fk Fin]. specialize (H _ _ Fin).
        apply String.eqb_eq in Fk. rewrite Fk, contains_refl in H. discriminate.
      * cbv beta iota.
        lazymatch goal with |- match find_key ?p data with _ => _ end = _ =>
          destruct (find_key p data) as [[k e]|] eqn:F2; [|reflexivity] end.
        apply find_key_some in F2 as [Fk Fin]. specialize (H _ _ Fin).
        rewrite Fk in H. discriminate.
Qed.

Lemma select_sheet_return e s r :
  select_sheet e s = SReturn r -> exists msg, r = RFrame (message_frame msg).
Proof.
  unfold select_sheet.
  repeat match goal with
         | |- context [match ?x with _ => _ end] => destruct x
         end; intros H; inversion H; eauto.
Qed.

Lemma locate_in_entry_done e m r :
  locate_in_entry e m = LDone r ->
  (exists msg, r = RFrame (message_frame msg)) \/ (exists ex, r = RRaise ex).
Proof.
  unfold locate_in_entry. destruct (select_sheet e (m_sheet m)) eqn:S.
  - destruct (apply_filters df (m_filters m)); intros H; inversion H; eauto.
  - intros H. inversion H; subst. left. eapply select_sheet_return; eauto.
Qed.

Lemma locate_done data m r :
  locate data m = LDone r ->
  (r = RNone /\ opt_truthy (m_data_source m) = false) \/
  (exists msg, r = RFrame (message_frame msg)) \/ (exists ex, r = RRaise ex).
Proof.
  unfold locate. destruct (m_data_source m) as [ds|]; simpl.
  - destruct (truthy ds) eqn:T; simpl.
    + destruct (lookup_source data ds).
      * intros H. right. eapply locate_in_entry_done; eauto.
      * destruct data as [|[k e] rest].
        -- intros H. inversion H. right. left. eauto.
        -- intros H. right. eapply locate_in_entry_done; eauto.
    + intros H. inversion H. left. auto.
  - intros H. inversion H. left. auto.
Qed.

Lemma select_and_cap_shape df m b :
  match select_and_cap df m b with
  | RFrame _ => b = false
  | RFrameMap _ _ => b = true
  | _ => False
  end.
Proof.
  unfold select_and_cap.
  destruct (m_columns m) as [[|c cs]|];
    [| destruct (match_loop _ _ _ _) as [[|x xs] cm] |];
    destruct (m_max_rows m) as [n|]; try destruct (n =? 0)%Z; destruct b; reflexivity.
Qed.

(** [_get_table_data] returns [None] exactly when [data_source] is
    missing or falsy: every other path returns a DataFrame, a
    (DataFrame, mapping) pair, or raises. *)
Theorem get_table_data_none_iff data m b :
  get_table_data data m b = RNone <-> opt_truthy (m_data_source m) = false.
Proof.
  unfold get_table_data. split.
  - destruct (locate data m) as [df|r] eqn:L.
    + intros H. pose proof (select_and_cap_shape df m b) as S. rewrite H in S. contradiction.
    + intros ->. apply locate_done in L as [[_ H]|[[msg H]|[ex H]]]; [exact H | discriminate | discriminate].
  - intros H. unfold locate. destruct (m_data_source m) as [ds|]; simpl in *.
    + rewrite H. reflexivity.
    + reflexivity.
Qed.

Lemma identity_map_fold (ls : list string) d k :
  assoc k (fold_left (fun d l => dict_set l l d) ls d) =
  if mem k ls then Some k else assoc k d.
Proof.
  revert d. induction ls as [|a r IH]; intros d; simpl; [reflexivity|].
  rewrite IH, assoc_dict_set.
  change (mem k (a :: r)) with ((String.eqb k a) || mem k r)%bool.
  destruct (mem k r); destruct (String.eqb_spec k a) as [->|_]; reflexivity.
Qed.

Lemma identity_map_assoc (ls : list string) k v :
  assoc k (identity_map ls) = Some v <-> v = k /\ In k ls.
Proof.
  unfold identity_map. rewrite identity_map_fold. rewrite <- mem_In.
  destruct (mem k ls); simpl; split; try discriminate; intuition congruence.
Qed.

Lemma select_and_cap_eq df m b :
  select_and_cap df m b =
  match m_columns m with
  | Some cols =>
    let '(matched, cmap) := match_loop (labels df) cols [] [] in
    match matched with
    | _ :: _ =>
      let res := select_labels df (order_loop cols cmap []) in
      if b then RFrameMap res cmap else RFrame res
    | [] => all_columns_result df (m_max_rows m) b
    end
  | None => all_columns_result df (m_max_rows m) b
  end.
Proof.
  unfold select_and_cap, all_columns_result, cap_rows.
  destruct (m_columns m) as [[|c cs]|]; [reflexivity| |reflexivity].
  destruct (match_loop _ _ _ _) as [[|x xs] cm]; reflexivity.
Qed.

Lemma labels_cap_rows df mr : labels (cap_rows df mr) = labels df.
Proof.
  unfold cap_rows. destruct mr as [n|]; [destruct (n =? 0)%Z; [reflexivity | apply labels_head] | reflexivity].
Qed.

Lemma select_labels_in (df : frame) (ls : list string) l :
  In l ls -> In l (labels df) -> In l (labels (select_labels df ls)).
Proof.
  intros Hl Hd. unfold labels, select_labels in *. simpl.
  apply in_map_iff in Hd as [[l' c] [Heq Hin]]. simpl in Heq. subst l'.
  apply in_map_iff. exists (l, c). split; [reflexivity|].
  apply in_flat_map. exists l. split; [exact Hl|].
  apply filter_In. split; [exact Hin | apply String.eqb_refl].
Qed.

Lemma match_loop_keys_in (avail cols matched : list string) cmap k v :
  assoc k (snd (match_loop avail cols matched cmap)) = Some v ->
  assoc k cmap = Some v \/ In k cols.
Proof.
  revert matched cmap. induction cols as [|u r IH]; intros matched cmap; simpl.
  - auto.
  - destruct (truthy (match_column avail u));
      [destruct (mem (match_column avail u) matched)|].
    + intros H. destruct (IH _ _ H); auto.
    + intros H. destruct (IH _ _ H) as [H1|H1]; auto.
      rewrite assoc_dict_set in H1. destruct (String.eqb_spec k u); auto.
    + intros H. destruct (IH _ _ H); auto.
Qed.

Lemma match_loop_none_matched (avail cols : list string) :
  (forall u, In u cols -> truthy (match_column avail u) = false) ->
  fst (match_loop avail cols [] []) = [].
Proof.
  intros H. rewrite match_loop_fst.
  destruct (dedup_from [] (map (match_column avail) cols)) as [|x xs] eqn:E; [reflexivity|].
  exfalso. assert (Hx : In x (dedup_from [] (map (match_column avail) cols))) by (rewrite E; left; reflexivity).
  apply dedup_from_elems in Hx as [[]|[Hx Ht]].
  apply in_map_iff in Hx as [u [<- Hu]]. rewrite H in Ht by exact Hu. discriminate.
Qed.

Lemma select_and_cap_map_targets df m r cmap :
  select_and_cap df m true = RFrameMap r cmap ->
  forall k v, assoc k cmap = Some v ->
    In v (labels r) /\ In v (labels df) /\
    (v = k \/ exists cols, m_columns m = Some cols /\ In k cols /\ v = match_column (labels df) k).
Proof.
  assert (Hall : all_columns_result df (m_max_rows m) true = RFrameMap r cmap ->
                 forall k v, assoc k cmap = Some v -> In v (labels r) /\ In v (labels df) /\ v = k).
  { unfold all_columns_result. intros H. injection H as <- <-. intros k v Hkv.
    apply identity_map_assoc in Hkv as [-> Hk]. rewrite labels_cap_rows in *. auto. }
  rewrite select_and_cap_eq. destruct (m_columns m) as [cols|] eqn:C.
  - destruct (match_loop (labels df) cols [] []) as [matched cm] eqn:ML.
    destruct matched as [|x xs].
    + intros H k v Hkv. destruct (Hall H k v Hkv) as [? []]. auto.
    + intros H. injection H as <- <-. intros k v Hkv.
      pose proof (match_loop_inv (labels df) cols [] [] ltac:(intros k' v' Hk'; discriminate)) as Hinv.
      rewrite ML in Hinv. simpl in Hinv.
      destruct (Hinv k v Hkv) as [Hv Ht].
      assert (Hin : In v (labels df)) by (rewrite Hv in *; apply match_column_in; exact Ht).
      assert (Hk : In k cols).
      { assert (Hs : assoc k (snd (match_loop (labels df) cols [] [])) = Some v) by (rewrite ML; exact Hkv).
        apply match_loop_keys_in in Hs as [Hs|Hs]; [discriminate | exact Hs]. }
      split; [|split; [exact Hin | right; exists cols; auto]].
      apply select_labels_in; [|exact Hin].
      rewrite order_loop_dedup by (intros k' v' Hk'; exact (proj2 (Hinv _ _ Hk'))).
      apply dedup_from_keeps; [|exact Ht].
      apply in_map_iff. exists k. split; [unfold ys_of; rewrite Hkv; reflexivity | exact Hk].
  - intros H k v Hkv. destruct (Hall H k v Hkv) as [? []]. auto.
Qed.

Lemma get_table_data_map_located data m r cmap :
  get_table_data data m true = RFrameMap r cmap ->
  exists df, locate data m = LFrame df /\ select_and_cap df m true = RFrameMap r cmap.
Proof.
  unfold get_table_data. destruct (locate data m) as [df|r'] eqn:L.
  - intros H. exists df. auto.
  - intros ->. apply locate_done in L as [[H _]|[[msg H]|[ex H]]]; discriminate.
Qed.

(** Every entry [k -> v] of the column mapping returned by
    [_get_table_data] names a column [v] of the returned DataFrame and of
    the filtered frame; either [v = k] (identity mapping) or [k] is a
    requested column and [v] its match. *)
Theorem get_table_data_mapping_targets data m r cmap :
  get_table_data data m true = RFrameMap r cmap ->
  exists df, locate data m = LFrame df /\
  forall k v, assoc k cmap = Some v ->
    In v (labels r) /\ In v (labels df) /\
    (v = k \/ exists cols, m_columns m = Some cols /\ In k cols /\ v = match_column (labels df) k).
Proof.
  intros H. apply get_table_data_map_located in H as [df [L H]].
  exists df. split; [exact L|]. apply select_and_cap_map_targets. exact H.
Qed.

Lemma get_table_data_mapping_targets_witness :
  get_table_data store_a (mapping_of "Sales" (Some "Q1") [] (Some ["total"]) None) true =
    RFrameMap (select_labels sales_q1 ["Total"]) [("total", "Total")] /\
  exists df, locate store_a (mapping_of "Sales" (Some "Q1") [] (Some ["total"]) None) = LFrame df /\
  forall k v, assoc k [("total", "Total")] = Some v ->
    In v (labels (select_labels sales_q1 ["Total"])) /\ In v (labels df) /\
    (v = k \/ exists cols, m_columns (mapping_of "Sales" (Some "Q1") [] (Some ["total"]) None) = Some cols /\
                          In k cols /\ v = match_column (labels df) k).
Proof.
  assert (H : get_table_data store_a (mapping_of "Sales" (Some "Q1") [] (Some ["total"]) None) true =
              RFrameMap (select_labels sales_q1 ["Total"]) [("total", "Total")]) by (vm_compute; reflexivity).
  split; [exact H|]. exact (get_table_data_mapping_targets _ _ _ _ H).
Defined.

Lemma select_and_cap_unmatched df m b cols :
  m_columns m = Some cols ->
  (forall u, In u cols -> truthy (match_column (labels df) u) = false) ->
  select_and_cap df m b = all_columns_result df (m_max_rows m) b.
Proof.
  intros C H. rewrite select_and_cap_eq, C.
  pose proof (match_loop_none_matched _ _ H) as F.
  destruct (match_loop (labels df) cols [] []) as [[|x xs] cm]; [reflexivity | discriminate].
Qed.

Lemma locate_without_columns data m : locate data (without_columns m) = locate data m.
Proof. reflexivity. Qed.

(** When no requested column matches (or none is requested), the
    mapping returned is the identity on the columns of the frame, and the
    frame keeps all of them. *)
Theorem get_table_data_identity_mapping data m df :
  locate data m = LFrame df ->
  (forall cols, m_columns m = Some cols ->
     forall u, In u cols -> truthy (match_column (labels df) u) = false) ->
  exists r cmap, get_table_data data m true = RFrameMap r cmap /\
    labels r = labels df /\
    (forall k v, assoc k cmap = Some v <-> v = k /\ In k (labels df)).
Proof.
  intros L H. unfold get_table_data. rewrite L.
  assert (E : select_and_cap df m true = all_columns_result df (m_max_rows m) true).
  { destruct (m_columns m) as [cols|] eqn:C.
    - apply (select_and_cap_unmatched _ _ _ cols C). apply H. reflexivity.
    - rewrite select_and_cap_eq, C. reflexivity. }
  rewrite E. unfold all_columns_result.
  eexists; eexists; split; [reflexivity|]. rewrite labels_cap_rows. split; [reflexivity|].
  intros k v. apply identity_map_assoc.
Qed.

(** Requesting columns none of which matches gives the same result as
    requesting no columns. *)
Theorem get_table_data_unmatched_columns data m b df cols :
  locate data m = LFrame df ->
  m_columns m = Some cols ->
  (forall u, In u cols -> truthy (match_column (labels df) u) = false) ->
  get_table_data data m b = get_table_data data (without_columns m) b.
Proof.
  intros L C H. unfold get_table_data. rewrite locate_without_columns, L.
  rewrite (select_and_cap_unmatched _ _ _ _ C H), select_and_cap_eq. reflexivity.
Qed.

Lemma get_table_data_identity_mapping_witness :
  exists r cmap, get_table_data store_a (mapping_of "Sales" (Some "Q1") [] None (Some 2%Z)) true = RFrameMap r cmap /\
    labels r = labels sales_q1 /\
    (forall k v, assoc k cmap = Some v <-> v = k /\ In k (labels sales_q1)).
Proof.
  apply get_table_data_identity_mapping.
  - vm_compute. reflexivity.
  - intros cols C. discriminate.
Defined.

Lemma get_table_data_unmatched_columns_witness :
  get_table_data store_a (mapping_of "Sales" (Some "Q1") [] (Some ["Regoin"]) None) false =
  get_table_data store_a (without_columns (mapping_of "Sales" (Some "Q1") [] (Some ["Regoin"]) None)) false.
Proof.
  apply (get_table_data_unmatched_columns _ _ _ sales_q1 ["Regoin"]).
  - vm_compute. reflexivity.
  - reflexivity.
  - intros u [<-|[]]. vm_compute. reflexivity.
Defined.

(** ** Filters *)















(** ** Column matching *)


Lemma partial_match_shortest (un : string) (avail : list string) (matched : string) :
  (forall a, In a avail -> truthy a = true) ->
  let r := partial_match un avail matched in
  (r = matched \/ (In r avail /\ partial_candidate un r = true)) /\
  (truthy matched = true -> truthy r = true /\ (String.length r <= String.length matched)%nat) /\
  (forall a, In a avail -> partial_candidate un a = true ->
     truthy r = true /\ (String.length r <= String.length a)%nat).
Proof.
  unfold partial_candidate. revert matched.
  induction avail as [|a rest IH]; intros matched Htr; simpl.
  - split; [left; reflexivity|]. split; [intros H; split; [exact H | lia]|]. intros a [].
  - assert (Hta : truthy a = true) by (apply Htr; left; reflexivity).
    assert (Htr' : forall x, In x rest -> truthy x = true) by (intros x Hx; apply Htr; right; exact Hx).
    destruct (contains (lower (strip a)) un || contains un (lower (strip a))) eqn:Ca.
    + destruct (negb (truthy matched) || (String.length a <? String.length matched)%nat) eqn:Cm.
      * destruct (IH a Htr') as [H1 [H2 H3]].
        split; [destruct H1 as [->|[H1 H1']]; right; auto|].
        split.
        -- intros Hm. rewrite Hm in Cm. simpl in Cm. apply Nat.ltb_lt in Cm.
           destruct (H2 Hta). split; [assumption | lia].
        -- intros x [<-|Hx] Hc; [apply H2; exact Hta | apply H3; assumption].
      * destruct (IH matched Htr') as [H1 [H2 H3]].
        apply orb_false_iff in Cm as [Cm1 Cm2]. apply negb_false_iff in Cm1.
        apply Nat.ltb_ge in Cm2.
        split; [destruct H1 as [->|[H1 H1']]; [left | right]; auto|].
        split; [exact H2|].
        intros x [<-|Hx] Hc; [destruct (H2 Cm1); split; [assumption | lia] | apply H3; assumption].
    + destruct (IH matched Htr') as [H1 [H2 H3]].
      split; [destruct H1 as [->|[H1 H1']]; [left | right]; auto|].
      split; [exact H2|].
      intros x [<-|Hx] Hc; [rewrite Hc in Ca; discriminate | apply H3; assumption].
Qed.

(** When the request is neither a column name nor equal to one up to case
    and blanks, and some column is a partial candidate, the match is a
    shortest partial candidate (all names being non-empty). *)
Theorem match_column_shortest_partial (avail : list string) (u : string) :
  (forall a, In a avail -> truthy a = true) ->
  mem (strip u) avail = false ->
  (forall a, In a avail -> String.eqb (lower (strip a)) (strip (lower (strip u))) = false) ->
  (exists a, In a avail /\ partial_candidate (strip (lower (strip u))) a = true) ->
  In (match_column avail u) avail /\
  partial_candidate (strip (lower (strip u))) (match_column avail u) = true /\
  (forall a, In a avail -> partial_candidate (strip (lower (strip u))) a = true ->
     (String.length (match_column avail u) <= String.length a)%nat).
Proof.
  intros Htr Hmem Heq [a0 [Ha0 Hc0]].
  assert (Hf : first_or_empty (fun a => String.eqb (lower (strip a)) (strip (lower (strip u)))) avail = "").
  { unfold first_or_empty. destruct (find _ avail) eqn:F; [|reflexivity].
    apply find_some in F as [Fin Fp]. rewrite Heq in Fp by exact Fin. discriminate. }
  destruct (partial_match_shortest (strip (lower (strip u))) avail "" Htr) as [H1 [_ H3]].
  destruct (H3 a0 Ha0 Hc0) as [Ht _].
  unfold match_column. rewrite Hmem. simpl. rewrite Hf. simpl. rewrite Ht.
  destruct H1 as [H1|[H1 H1']]; [rewrite H1 in Ht; discriminate|].
  split; [exact H1|]. split; [exact H1'|].
  intros a Ha Hc. apply H3; assumption.
Qed.

(** ** Row types *)

Lemma row_types_nth (df : frame) p :
  (p < length (index df))%nat ->
  nth p (row_types df) Regular =
  classify (length (index df)) (length (columns df)) (nth p (index df) 0%Z) (row_cells df p).
Proof.
  intros Hp. unfold row_types.
  set (f := fun '(p0, idx) => classify (length (index df)) (length (columns df)) idx (row_cells df p0)).
  rewrite (nth_indep _ Regular (f (0%nat, 0%Z)))
    by (rewrite length_map, length_combine, length_seq, Nat.min_id; exact Hp).
  rewrite map_nth, combine_nth by apply length_seq.
  rewrite seq_nth by exact Hp. reflexivity.
Qed.

Lemma second_col_value_present (row : list value) :
  second_col_value row <> "" -> second_missing row = false.
Proof.
  destruct row as [|x [|v r]]; simpl; try (intros H; exfalso; apply H; reflexivity).
  destruct (isna v); [intros H; exfalso; apply H; reflexivity | reflexivity].
Qed.

Lemma second_missing_blank (row : list value) :
  second_missing row = true -> second_col_value row = "".
Proof. destruct row as [|x [|v r]]; simpl; try reflexivity. intros ->. reflexivity. Qed.

(** For any index, one row type per row; a [Total] row has TOTAL in its
    first value; a [Subtotal] row has TOTAL in it, or a blank second value
    and data further right; a row without TOTAL and with a non-blank
    second value is [Regular]. *)
Theorem row_types_classes (df : frame) :
  length (row_types df) = length (index df) /\
  forall p, (p < length (index df))%nat ->
    let row := row_cells df p in
    (nth p (row_types df) Regular = Total -> contains (first_col_value row) "TOTAL" = true) /\
    (nth p (row_types df) Regular = Subtotal ->
       contains (first_col_value row) "TOTAL" = true \/
       (second_col_value row = "" /\ has_data row (length (columns df)) = true)) /\
    (contains (first_col_value row) "TOTAL" = false -> second_col_value row <> "" ->
       nth p (row_types df) Regular = Regular).
Proof.
  split.
  - unfold row_types. rewrite length_map, length_combine, length_seq, Nat.min_id. reflexivity.
  - intros p Hp row. rewrite (row_types_nth df p Hp). fold row.
    unfold classify.
    destruct (contains (first_col_value row) "TOTAL") eqn:C.
    + split; [auto|]. split; [auto|]. discriminate.
    + destruct (second_missing row) eqn:M; simpl.
      * pose proof (second_missing_blank _ M) as B.
        split; [destruct (truthy _ && _); [destruct (has_data _ _)|]; discriminate|].
        split; [|intros _ H; contradiction].
        destruct (truthy _ && _); [destruct (has_data _ _) eqn:D|]; try discriminate.
        intros _. right. auto.
      * destruct (String.eqb_spec (second_col_value row) "") as [B|B].
        -- split; [destruct (truthy _ && _); [destruct (has_data _ _)|]; discriminate|].
           split; [|intros _ H; contradiction].
           destruct (truthy _ && _); [destruct (has_data _ _) eqn:D|]; try discriminate.
           intros _. right. auto.
        -- split; [discriminate|]. split; [discriminate|]. auto.
Qed.

(** ** The chart block *)

Lemma positional_map_vals (req act : list string) d k v :
  assoc k (positional_map req act d) = Some v -> assoc k d = Some v \/ In v act.
Proof.
  revert act d. induction req as [|r rs IH]; intros act d; simpl; [auto|].
  destruct act as [|a acts]; [auto|].
  intros H. destruct (IH acts _ H) as [H1|H1]; [|right; right; exact H1].
  rewrite assoc_dict_set in H1. destruct (String.eqb k r).
  - injection H1 as <-. right. left. reflexivity.
  - left. exact H1.
Qed.

Lemma get_col_in k cmap (cols : list string) :
  (forall k v, assoc k cmap = Some v -> In v cols) ->
  truthy (get_col k cmap) = true -> In (get_col k cmap) cols.
Proof.
  intros Hc. unfold get_col. destruct (assoc k cmap) eqn:A; [intros _; eapply Hc; eauto|].
  discriminate.
Qed.

Lemma resolve_x_in cols cmap x :
  (forall k v, assoc k cmap = Some v -> In v cols) ->
  truthy (resolve_x cols cmap x) = true -> In (resolve_x cols cmap x) cols.
Proof.
  intros Hc. unfold resolve_x. cbv zeta.
  destruct (truthy (get_col x cmap)) eqn:G; cbn iota; rewrite ?G;
    [intros _; apply get_col_in; auto|].
  destruct (truthy (first_or_empty _ cols)) eqn:F; cbn iota; rewrite ?F;
    [intros _; apply first_or_empty_in; exact F|].
  destruct cols as [|c cs]; [discriminate | intros _; left; reflexivity].
Qed.

Lemma resolve_y_in cols cmap ax y :
  (forall k v, assoc k cmap = Some v -> In v cols) ->
  truthy (resolve_y cols cmap ax y) = true -> In (resolve_y cols cmap ax y) cols.
Proof.
  intros Hc. unfold resolve_y.
  destruct (truthy (get_col y cmap)) eqn:G; [intros _; apply get_col_in; auto|].
  apply first_or_empty_in.
Qed.

Lemma collect_y_spec cols cmap ax ys acc :
  (forall k v, assoc k cmap = Some v -> In v cols) ->
  (forall a, In a acc -> In a cols /\ a <> ax) -> NoDup acc ->
  (forall a, In a (collect_y cols cmap ax ys acc) -> In a cols /\ a <> ax) /\
  NoDup (collect_y cols cmap ax ys acc) /\
  (forall a, In a acc -> In a (collect_y cols cmap ax ys acc)).
Proof.
  intros Hc. revert acc. induction ys as [|y r IH]; intros acc Hacc Hnd; simpl; [auto|].
  destruct (truthy (resolve_y cols cmap ax y) && negb (String.eqb (resolve_y cols cmap ax y) ax)
            && negb (mem (resolve_y cols cmap ax y) acc)) eqn:C.
  - apply andb_true_iff in C as [C C3]. apply andb_true_iff in C as [C1 C2].
    apply negb_true_iff in C2, C3. apply String.eqb_neq in C2.
    assert (Hn : ~ In (resolve_y cols cmap ax y) acc) by (rewrite <- mem_In; congruence).
    destruct (IH (acc ++ [resolve_y cols cmap ax y])%list) as [I1 [I2 I3]].
    + intros a Ha. apply in_app_or in Ha as [Ha|[<-|[]]]; [auto|].
      split; [apply resolve_y_in; auto | exact C2].
    + apply NoDup_app; [exact Hnd | constructor; [intros []|constructor] |].
      intros a Ha [<-|[]]. contradiction.
    + split; [exact I1|]. split; [exact I2|]. intros a Ha. apply I3. apply in_or_app. auto.
  - apply IH; auto.
Qed.

Lemma resolve_ys_spec cols cmap ax ys :
  (forall k v, assoc k cmap = Some v -> In v cols) ->
  (forall a, In a (resolve_ys cols cmap ax ys) -> In a cols /\ a <> ax) /\
  (NoDup cols -> NoDup (resolve_ys cols cmap ax ys)).
Proof.
  intros Hc. destruct (collect_y_spec cols cmap ax ys [] Hc) as [I1 [I2 _]];
    [intros a []| constructor |].
  unfold resolve_ys. destruct (collect_y cols cmap ax ys []) as [|a0 r] eqn:E.
  - split.
    + intros a Ha. apply filter_In in Ha as [Ha Hb]. apply negb_true_iff, String.eqb_neq in Hb. auto.
    + intros Hnd. apply NoDup_filter. exact Hnd.
  - split; [exact I1 | intros _; exact I2].
Qed.

(** When the chart block calls [add_chart], the X column is a column of
    the data, the Y columns are non-empty, distinct from X and columns of
    the data (distinct from each other when the labels are), and the data
    has a row. *)
Theorem chart_call_axes data ds sheet x ys ax ays df :
  chart_call data ds sheet x ys = Some (ax, ays, df) ->
  In ax (labels df) /\ ays <> [] /\
  (forall y, In y ays -> In y (labels df) /\ y <> ax) /\
  (NoDup (labels df) -> NoDup ays) /\
  index df <> [].
Proof.
  unfold chart_call.
  destruct (truthy x && _); [|discriminate].
  set (m := mkMapping ds sheet [] (Some (x :: ys)) None).
  assert (Hget : forall df0 cmap0,
    match get_table_data data m true with
    | RFrameMap df cmap => Some (df, cmap)
    | RFrame df => Some (df, positional_map (x :: ys) (labels df) [])
    | _ => None
    end = Some (df0, cmap0) -> forall k v, assoc k cmap0 = Some v -> In v (labels df0)).
  { intros df0 cmap0. destruct (get_table_data data m true) as [|d|d cm|e] eqn:G; try discriminate.
    - assert (Hp : forall k v, assoc k (positional_map (x :: ys) (labels d) []) = Some v ->
                               In v (labels d)).
      { intros k v Hkv. apply positional_map_vals in Hkv as [Hkv|Hkv]; [discriminate | exact Hkv]. }
      intros E. injection E as <- <-. exact Hp.
    - intros E. injection E as <- <-. intros k v Hkv.
      apply get_table_data_map_located in G as [df1 [_ G]].
      exact (proj1 (select_and_cap_map_targets _ _ _ _ G k v Hkv)). }
  cbv zeta.
  lazymatch goal with
  | |- match ?g with None => _ | Some _ => _ end = _ -> _ =>
      destruct g as [[df0 cmap0]|] eqn:E; [|discriminate]
  end.
  specialize (Hget df0 cmap0 eq_refl).
  destruct ((0 <? length (index df0))%nat && _) eqn:Hsz; [|discriminate].
  destruct (truthy (resolve_x (labels df0) cmap0 x) && _ && _) eqn:Hc; [|discriminate].
  intros R. injection R as <- <- <-.
  apply andb_true_iff in Hc as [Hc Hrows]. apply andb_true_iff in Hc as [Hx Hys].
  destruct (resolve_ys_spec (labels df0) cmap0 (resolve_x (labels df0) cmap0 x) ys Hget) as [Y1 Y2].
  split; [apply resolve_x_in; auto|].
  split; [destruct (resolve_ys _ _ _ _); [discriminate | discriminate]|].
  split; [exact Y1|]. split; [exact Y2|].
  apply Nat.ltb_lt in Hrows. destruct (index df0); [simpl in Hrows; lia | discriminate].
Qed.

(** ** Text cleaning and text lookups *)

(** [_clean_text] returns a stripped string, [""] on a missing value. *)
Theorem clean_text_stripped (v : value) :
  strip (clean_text v) = clean_text v /\ (isna v = true -> clean_text v = "").
Proof.
  unfold clean_text. split.
  - destruct (_ || _ || _ || _); [reflexivity | apply strip_idem].
  - intros ->. reflexivity.
Qed.

Lemma aggregate_text_raises sum_str mean_str agg col e :
  aggregate_text sum_str mean_str agg col = inl e <->
  e = IndexError /\ agg <> "sum" /\ agg <> "mean" /\ col = [].
Proof.
  unfold aggregate_text. destruct e.
  destruct (String.eqb_spec agg "sum"); [split; [discriminate | intuition]|].
  destruct (String.eqb_spec agg "mean"); [split; [discriminate | intuition]|].
  destruct col; split; try discriminate; intuition congruence.
Qed.

(** [_get_text_from_data] raises [IndexError] exactly when the source is
    an empty workbook, or the column exists but is empty and the
    aggregate is neither sum nor mean. *)
Theorem get_text_from_data_raises sum_str mean_str data ds col agg dflt :
  get_text_from_data sum_str mean_str data ds col agg dflt = inl IndexError <->
  exists d en, ds = Some d /\ assoc d data = Some en /\
    (en = ESheets [] \/
     exists df, first_sheet en = inr df /\ column_of df col = Some [] /\
                agg <> "sum" /\ agg <> "mean").
Proof.
  unfold get_text_from_data. split.
  - destruct ds as [d|]; [|discriminate].
    destruct (assoc d data) as [en|] eqn:A; [|discriminate].
    destruct (first_sheet en) as [err|df] eqn:F.
    + intros _. exists d, en. split; [reflexivity|]. split; [exact A|]. left.
      destruct en as [df|[|[s df] r]]; simpl in F; try discriminate. reflexivity.
    + destruct (column_of df col) as [c|] eqn:C; [|discriminate].
      intros H. apply aggregate_text_raises in H as [_ [H1 [H2 ->]]].
      exists d, en. split; [reflexivity|]. split; [exact A|]. right. exists df. auto.
  - intros [d [en [-> [A H]]]]. rewrite A.
    destruct H as [->|[df [F [C [H1 H2]]]]]; [reflexivity|].
    rewrite F, C. apply aggregate_text_raises. auto.
Qed.

(** On a workbook source, [_get_text_from_data] and [_get_list_from_data]
    read its first sheet, and [_get_text_value] returns its default. *)
Theorem text_lookups_workbook sum_str mean_str series_str data d s df rest col agg dflt dl dopt :
  assoc d data = Some (ESheets ((s, df) :: rest)) ->
  get_text_from_data sum_str mean_str data (Some d) col agg dflt =
    get_text_from_data sum_str mean_str [(d, ETable df)] (Some d) col agg dflt /\
  get_list_from_data series_str data (Some d) col dl =
    get_list_from_data series_str [(d, ETable df)] (Some d) col dl /\
  get_text_value sum_str mean_str data (Some d) col agg dopt = inr dopt.
Proof.
  intros A. unfold get_text_from_data, get_list_from_data, get_text_value.
  rewrite A. simpl. rewrite String.eqb_refl. auto.
Qed.

(** On an empty workbook, [_get_text_from_data] and [_get_list_from_data]
    raise [IndexError], and [_get_text_value] returns its default. *)
Theorem text_lookups_empty_workbook sum_str mean_str series_str data d col agg dflt dl dopt :
  assoc d data = Some (ESheets []) ->
  get_text_from_data sum_str mean_str data (Some d) col agg dflt = inl IndexError /\
  get_list_from_data series_str data (Some d) col dl = inl IndexError /\
  get_text_value sum_str mean_str data (Some d) col agg dopt = inr dopt.
Proof.
  intros A. unfold get_text_from_data, get_list_from_data, get_text_value.
  rewrite A. auto.
Qed.

Lemma select_and_cap_no_selection df m b :
  (forall cols, m_columns m = Some cols ->
     forall u, In u cols -> truthy (match_column (labels df) u) = false) ->
  select_and_cap df m b = all_columns_result df (m_max_rows m) b.
Proof.
  intros H. destruct (m_columns m) as [cols|] eqn:C.
  - apply (select_and_cap_unmatched _ _ _ cols C). apply H. reflexivity.
  - rewrite select_and_cap_eq, C. reflexivity.
Qed.

(** ** Row cap, slide loop, title slide, number formats, sheets *)

(** When every column is kept, a non-zero [max_rows = n] leaves
    [min(n, rows)] rows for [n > 0] and drops the last [-n] rows for
    [n < 0]. *)
Theorem get_table_data_row_cap data m b df n :
  locate data m = LFrame df ->
  (forall cols, m_columns m = Some cols ->
     forall u, In u cols -> truthy (match_column (labels df) u) = false) ->
  m_max_rows m = Some n -> n <> 0%Z ->
  rows_of (get_table_data data m b) =
  Some (if (0 <=? n)%Z then Nat.min (Z.to_nat n) (length (index df))
        else (length (index df) - Z.to_nat (- n))%nat).
Proof.
  intros L H Mx Hn. unfold get_table_data. rewrite L, select_and_cap_no_selection by exact H.
  unfold all_columns_result, cap_rows. rewrite Mx.
  destruct (Z.eqb_spec n 0) as [E|_]; [contradiction|].
  assert (R : rows_of (if b then RFrameMap (head df n) (identity_map (labels (head df n)))
                       else RFrame (head df n)) = Some (length (index (head df n))))
    by (destruct b; reflexivity).
  rewrite R. unfold head. simpl. rewrite length_firstn. f_equal.
  destruct (Z.leb_spec 0 n); lia.
Qed.

(** The slide loop only appends to the deck, at most one slide per
    configuration. *)
Theorem generate_slides_extends prep pop fb cfgs deck :
  exists added, Generator.generate_slides prep pop fb cfgs deck = (deck ++ added)%list /\
                (length added <= length cfgs)%nat.
Proof.
  revert deck. induction cfgs as [|c r IH]; intros deck; simpl.
  - exists []. rewrite app_nil_r. auto.
  - assert (G : exists s, Generator.generate_slide prep pop fb c deck = (deck ++ s)%list /\
                          (length s <= 1)%nat).
    { unfold Generator.generate_slide.
      destruct (prep c); [destruct (fb c)|].
      - exists []. rewrite app_nil_r. auto.
      - eexists. split; [reflexivity|]. simpl. lia.
      - destruct (pop c) as [placed []]; eexists; split; try reflexivity; simpl; lia. }
    destruct G as [s [-> Hs]]. destruct (IH (deck ++ s)%list) as [a [-> Ha]].
    exists (s ++ a)%list. rewrite app_assoc. split; [reflexivity|].
    rewrite length_app. lia.
Qed.

(** The affiliate step changes no slide but the first, and no shape,
    paragraph or run count on it. *)
Theorem cover_step_keeps_layout a slides :
  map (map shape_outline) (Generator.cover_step a slides) = map (map shape_outline) slides /\
  tl (Generator.cover_step a slides) = tl slides.
Proof.
  unfold Generator.cover_step.
  destruct a as [a|]; [destruct (truthy a)|]; try (split; reflexivity).
  unfold Generator.replace_affiliate_in_title_slide.
  destruct slides as [|first rest]; [split; reflexivity|].
  simpl. split; [|reflexivity]. f_equal. rewrite map_map. apply map_ext.
  intros [ps|rs]; simpl; [|reflexivity].
  rewrite map_map. f_equal. apply map_ext. intros p. apply length_map.
Qed.


(** The sheet stage picks a sheet of the workbook. *)
Theorem select_sheet_from_workbook sheets s df :
  select_sheet (ESheets sheets) s = SFrame df -> exists k, In (k, df) sheets.
Proof.
  unfold select_sheet.
  repeat match goal with
         | |- context [match ?x with _ => _ end] =>
             lazymatch x with
             | find_key _ _ => let F := fresh "F" in destruct x as [[? ?]|] eqn:F
             | assoc _ _ => let F := fresh "F" in destruct x eqn:F
             | _ => destruct x
             end
         end;
  intros H; try discriminate; injection H as <-;
  repeat match goal with
         | F : find_key _ _ = Some _ |- _ => apply find_key_some in F as [_ F]
         | F : assoc _ _ = Some _ |- _ => apply assoc_in in F
         end;
  eauto; eexists; left; reflexivity.
Qed.

(** ** Witnesses *)





Lemma match_column_shortest_partial_witness :
  In (match_column ["Total Sales"; "Sales"; "Region"] "sale") ["Total Sales"; "Sales"; "Region"] /\
  partial_candidate (strip (lower (strip "sale"))) (match_column ["Total Sales"; "Sales"; "Region"] "sale") = true /\
  (forall a, In a ["Total Sales"; "Sales"; "Region"] ->
     partial_candidate (strip (lower (strip "sale"))) a = true ->
     (String.length (match_column ["Total Sales"; "Sales"; "Region"] "sale") <= String.length a)%nat).
Proof.
  apply match_column_shortest_partial.
  - intros a [<-|[<-|[<-|[]]]]; reflexivity.
  - reflexivity.
  - intros a [<-|[<-|[<-|[]]]]; reflexivity.
  - exists "Sales". split; [right; left; reflexivity | reflexivity].
Defined.

Lemma chart_call_axes_witness :
  In "Region" (labels sales_q1) /\ ["Total"] <> [] /\
  (forall y, In y ["Total"] -> In y (labels sales_q1) /\ y <> "Region") /\
  (NoDup (labels sales_q1) -> NoDup ["Total"]) /\
  index sales_q1 <> [].
Proof.
  apply (chart_call_axes store_a (Some "Sales") (Some "Q1") "region" ["Total"]).
  vm_compute. reflexivity.
Defined.


Lemma text_lookups_workbook_witness :
  get_text_from_data (fun _ => "") (fun _ => "") text_deck (Some "Deck") (Some "Total") "first" "" =
    get_text_from_data (fun _ => "") (fun _ => "") [("Deck", ETable sales_q1)] (Some "Deck") (Some "Total") "first" "" /\
  get_list_from_data (fun _ => []) text_deck (Some "Deck") (Some "Total") [] =
    get_list_from_data (fun _ => []) [("Deck", ETable sales_q1)] (Some "Deck") (Some "Total") [] /\
  get_text_value (fun _ => "") (fun _ => "") text_deck (Some "Deck") (Some "Total") "first" None = inr None.
Proof. apply (text_lookups_workbook _ _ _ text_deck "Deck" "S1" sales_q1 []). reflexivity. Defined.

Lemma text_lookups_empty_workbook_witness :
  get_text_from_data (fun _ => "") (fun _ => "") [("Deck", ESheets [])] (Some "Deck") (Some "Total") "sum" "" = inl IndexError /\
  get_list_from_data (fun _ => []) [("Deck", ESheets [])] (Some "Deck") (Some "Total") [] = inl IndexError /\
  get_text_value (fun _ => "") (fun _ => "") [("Deck", ESheets [])] (Some "Deck") (Some "Total") "sum" None = inr None.
Proof. apply text_lookups_empty_workbook. reflexivity. Defined.

Lemma get_table_data_row_cap_witness :
  rows_of (get_table_data store_a (mapping_of "Sales" (Some "Q1") [] None (Some (-1)%Z)) false) = Some 2%nat.
Proof.
  apply (get_table_data_row_cap store_a _ false sales_q1 (-1)%Z).
  - vm_compute. reflexivity.
  - intros cols C. discriminate.
  - reflexivity.
  - discriminate.
Defined.

Lemma select_sheet_from_workbook_witness : exists k, In (k, sales_q1) [("Q1", sales_q1)].
Proof. apply (select_sheet_from_workbook [("Q1", sales_q1)] (Some "q1")). vm_compute. reflexivity. Defined.

(* ------------------------------------------------------------------ *)
(** ** The sizing code of [add_table] *)

Import Layout.

Lemma Qmax_ge_l a b : (a <= Qmax a b)%Q.
Proof. unfold Qmax. destruct (Qle_bool a b) eqn:E; [apply Qle_bool_iff in E; exact E | apply Qle_refl]. Qed.




Lemma qdiv_nonzero a b : ~ (b == 0)%Q -> qdiv a b = inr (a / b)%Q.
Proof. unfold qdiv. intros H. destruct (Qeq_bool b 0) eqn:E; [|reflexivity].
  apply Qeq_bool_iff in E. contradiction. Qed.


Lemma total_h_scale n h r f : (total_h n (h * f) (r * f) == total_h n h r * f)%Q.
Proof. unfold total_h. ring. Qed.

Lemma total_h_pos n h r : (22 # 100 <= h)%Q -> (0 <= r)%Q -> (22 # 100 <= total_h n h r)%Q.
Proof.
  intros Hh Hr. unfold total_h.
  assert (0 <= inject_Z (Z.of_nat n) * r)%Q.
  { apply Qmult_le_0_compat; [|exact Hr]. unfold Qle. simpl. lia. }
  lra.
Qed.


Lemma base_heights_pos n : (0 < fst (base_heights n))%Q /\ (0 < snd (base_heights n))%Q.
Proof.
  unfold base_heights.
  repeat match goal with |- context [if ?b then _ else _] => destruct b end;
    split; reflexivity.
Qed.

Lemma shrink_passes_raises n H st0 e :
  (0 < calc_h st0)%Q -> calc_h st0 = total_h n (header_h st0) (row_h st0) ->
  data_font st0 = None ->
  shrink_passes n H st0 = inl e -> e = UnboundLocalError.
Proof.
  intros Hc Hcalc Hf. unfold shrink_passes.
  destruct (Qlt_bool H (calc_h st0)) eqn:L1; [|discriminate].
  apply Qlt_bool_iff in L1.
  rewrite qdiv_nonzero by lra. cbn [bind].
  set (s := (H * (92 # 100) / calc_h st0)%Q).
  destruct (Qlt_bool H (calc_h (rescale n st0 s))) eqn:L2; [|discriminate].
  apply Qlt_bool_iff in L2.
  assert (E : (calc_h (rescale n st0 s) == H * (92 # 100))%Q).
  { simpl. rewrite total_h_scale, <- Hcalc. unfold s. field. lra. }
  rewrite qdiv_nonzero by (intros Z0; lra).
  simpl. rewrite Hf. intros E'. inversion E'. reflexivity.
Qed.

(** The sizing code raises nothing but [UnboundLocalError]: no division
    by zero on any path. *)
Theorem table_height_raises_only_unbound n top height e :
  table_height n top height = inl e -> e = UnboundLocalError.
Proof.
  unfold table_height.
  set (H := Qmin height ((75 # 10) - top - (5 # 10))).
  pose proof (base_heights_pos n) as [Pr Ph].
  destruct (base_heights n) as [r0 h0]. simpl in Pr, Ph.
  cbn [bind].
  destruct (shrink_passes n H _) as [e'|st] eqn:Sh.
  - cbn [bind]. intros E. injection E as <-. apply (shrink_passes_raises n H (mkL r0 h0 (total_h n h0 r0) None None 0) e');
      [| reflexivity | reflexivity | exact Sh].
    simpl. unfold total_h.
    assert (0 <= inject_Z (Z.of_nat n) * r0)%Q.
    { apply Qmult_le_0_compat; [unfold Qle; simpl; lia | lra]. }
    lra.
  - cbn [bind]. set (r := Qmax (18 # 100) (row_h st)).
    set (h := Qmax (22 # 100) (header_h st)).
    assert (Hr : (18 # 100 <= r)%Q) by apply Qmax_ge_l.
    assert (Hh : (22 # 100 <= h)%Q) by apply Qmax_ge_l.
    assert (Hfin : (22 # 100 <= total_h n h r)%Q) by (apply total_h_pos; lra).
    assert (Hrest : forall r1 h1 k1,
      match (let th := total_h n h1 r1 in
        if Qlt_bool ((75 # 10) - (4 # 10)) (top + th) then
          let avail := (75 # 10) - (4 # 10) - top in
          if Qlt_bool (5 # 10) avail then
            e <- qdiv (avail * (92 # 100)) th ;;
            let r2 := r1 * e in
            let h2 := h1 * e in
            let th2 := total_h n h2 r2 in
            if Qlt_bool ((75 # 10) - (4 # 10)) (top + th2) then
              e2 <- qdiv (avail * (90 # 100)) th2 ;;
              ret (total_h n (h2 * e2) (r2 * e2), S (S k1))
            else ret (th2, S k1)
          else ret (th, k1)
        else ret (th, k1)) with inl _ => False | inr _ => True end).
    { intros r1 h1 k1. cbv zeta.
      destruct (Qlt_bool _ (top + total_h n h1 r1)) eqn:L3; [|exact I].
      destruct (Qlt_bool (5 # 10) _) eqn:L4; [|exact I].
      apply Qlt_bool_iff in L3, L4.
      rewrite qdiv_nonzero by lra. cbn [bind].
      destruct (Qlt_bool _ (top + total_h n _ _)) eqn:L5; [|exact I].
      apply Qlt_bool_iff in L5.
      rewrite qdiv_nonzero by lra. exact I. }
    destruct (Qlt_bool H (total_h n h r)).
    + rewrite qdiv_nonzero by lra. cbn [bind ret].
      intros E. specialize (Hrest (r * (H * (92 # 100) / total_h n h r))%Q
                                   (h * (H * (92 # 100) / total_h n h r))%Q (S (passes st))).
      cbv zeta in Hrest. rewrite E in Hrest. contradiction.
    + cbn [bind ret]. intros E. specialize (Hrest r h (passes st)). cbv zeta in Hrest. rewrite E in Hrest. contradiction.
Qed.


Lemma table_height_raises_only_unbound_witness : UnboundLocalError = UnboundLocalError.
Proof. apply (table_height_raises_only_unbound 1 (72 # 10) 1). vm_compute. reflexivity. Defined.
